(** * Regional analytics dashboard: the dataset store and the aggregation engine

    A shallow embedding of [store.py], [analytics.py] and the two routes of
    [routes.py] that guard them, followed by the properties of the
    specification that concern them.

    Conventions of the embedding:
    - a Python exception is a value of [Exn]; a function that can raise
      returns a [Result];
    - a cell of a dataset is a [Scalar]: missing ([None]/[NaN]), a number or
      a string.  Numbers are exact rationals ([Q]): the rounding of binary
      floating point is not modelled, so every statement below is about
      order, selection and exact arithmetic.  Booleans are outside the
      model; timestamps exist only inside [trends], as integers;
    - a [DataFrame] is its column labels and its rows; the default integer
      row index is implicit in the position of a row, so
      [reset_index(drop=True)] is the identity;
    - the store's [RLock] is not modelled: every operation is one atomic
      state transition, and [uuid4] is an explicit argument;
    - the parts of pandas and of Python that parse or print numbers and
      dates are the fields of the class [Runtime]; the development is
      parametric in them and [iso_runtime] instantiates them on a fragment
      (decimal literals, ISO calendar dates) for the concrete scenarios. *)

From stdpp Require Import gmap strings.
From Stdlib Require Import QArith Qabs Qround ZArith List String Ascii Bool Lia.
From Stdlib Require Import Sorted Permutation SetoidList OrdersEx DecimalString.
Import ListNotations.
Open Scope string_scope.

(** ** Exceptions and results *)

Inductive Exn : Type :=
| ValueError_missing (missing : list string)
    (* raise ValueError(f"Missing required columns: {missing}") *)
| ValueError_pandas      (* a ValueError raised inside pandas *)
| TypeError
| AttributeError
| KeyError (key : string)
| IndexError
| HTTPException (status : nat).

Inductive Result (A : Type) : Type :=
| Ok (a : A)
| Err (e : Exn).
Arguments Ok {A} a.
Arguments Err {A} e.

Definition bind {A B : Type} (r : Result A) (k : A -> Result B) : Result B :=
  match r with
  | Ok a => k a
  | Err e => Err e
  end.

Notation "'let*' x ':=' r 'in' k" := (bind r (fun x => k))
  (at level 10, x name, r at level 100, k at level 200).
Notation "'let*' ' p ':=' r 'in' k" :=
  (bind r (fun x => match x with p => k end))
  (at level 10, p pattern, r at level 100, k at level 200).

Fixpoint mapM {A B : Type} (f : A -> Result B) (l : list A) : Result (list B) :=
  match l with
  | [] => Ok []
  | a :: l' => let* b := f a in let* bs := mapM f l' in Ok (b :: bs)
  end.

Definition is_ok {A : Type} (r : Result A) : bool :=
  match r with Ok _ => true | Err _ => false end.

(** ** Scalars *)

Inductive Scalar : Type :=
| Null                 (* None, NaN, NaT *)
| Num (q : Q)
| Str (s : string).

Definition isna (c : Scalar) : bool :=
  match c with Null => true | _ => false end.

Definition notna (c : Scalar) : bool := negb (isna c).

(** The order in which pandas sorts group keys ([groupby(sort=True,
    dropna=False)]): numbers by value, then strings by code point, and the
    missing key last. *)
Definition scalar_compare (a b : Scalar) : comparison :=
  match a, b with
  | Num p, Num q => (p ?= q)%Q
  | Num _, _ => Lt
  | _, Num _ => Gt
  | Str s, Str t => String_as_OT.compare s t
  | Str _, Null => Lt
  | Null, Str _ => Gt
  | Null, Null => Eq
  end.

Definition scalar_eq (a b : Scalar) : Prop := scalar_compare a b = Eq.
Definition scalar_lt (a b : Scalar) : Prop := scalar_compare a b = Lt.

(** ** The runtime: parsing and printing done by pandas and Python *)

Class Runtime : Type := {
  (* pd.to_numeric on a string cell; None when it cannot be coerced *)
  parse_float : string -> option Q;
  (* str() of a numeric cell *)
  num_repr : Q -> string;
  (* pd.to_datetime(errors="coerce", utc=True) on one cell *)
  to_datetime : Scalar -> option Z;
  (* pd.Grouper(freq=f): the label of the bucket of a timestamp;
     None when f is not a frequency alias *)
  freq_bucket : string -> option (Z -> Z);
  (* .dt.date.astype(str) on one timestamp *)
  date_str : Z -> string
}.

(** ** Tabular datasets *)

Record DataFrame : Type := {
  columns : list string;
  rows : list (list Scalar)
}.

(* len(df) *)
Definition len (df : DataFrame) : nat := length (rows df).

(* c in df.columns *)
Definition has_column (df : DataFrame) (c : string) : bool :=
  existsb (String.eqb c) (columns df).

(** A record of the JSON payload: a Python dict, in insertion order. *)
Definition Record_ : Type := list (string * Scalar).

Definition dict_get (r : Record_) (k : string) : Scalar :=
  match find (fun kv => String.eqb (fst kv) k) r with
  | Some kv => snd kv
  | None => Null
  end.

(* one more key: appended unless it has been seen *)
Definition seen_step (acc : list string) (k : string) : list string :=
  if existsb (String.eqb k) acc then acc else (acc ++ [k])%list.

(* the distinct elements of a list, each at its first occurrence *)
Definition first_seen (l : list string) : list string :=
  fold_left seen_step l [].

Definition union_keys (records : list Record_) : list string :=
  first_seen (concat (map (map fst) records)).

(** [pd.DataFrame.from_records] on a list of dicts.  The columns are the
    keys in first-seen order and a key absent from a record is missing in
    its row.  pandas derives the row index from the column arrays: when no
    record has any key there is no array, and the frame has no row. *)
Definition from_records (records : list Record_) : DataFrame :=
  let cols := union_keys records in
  {| columns := cols;
     rows := match cols with
             | [] => []
             | _ :: _ => map (fun r => map (dict_get r) cols) records
             end |}.

(** ** store.py *)

Record DatasetMeta : Type := {
  dataset_id : string;
  name : string;
  meta_rows : nat;
  meta_columns : list string
}.

Record DatasetStore : Type := {
  _data : gmap string DataFrame;
  _names : gmap string string
}.

(* name or dataset_id *)
Definition name_or (nm : option string) (dflt : string) : string :=
  match nm with
  | Some n => if String.eqb n EmptyString then dflt else n
  | None => dflt
  end.

Definition get (st : DatasetStore) (id : string) : Result DataFrame :=
  match _data st !! id with
  | Some df => Ok df
  | None => Err (KeyError id)
  end.

(** [uid] is the value of [uuid4().hex[:12]] drawn by the call. *)
Definition put_dataframe (st : DatasetStore) (uid : string) (df : DataFrame)
    (nm : option string) : Result (DatasetMeta * DatasetStore) :=
  let names' := <[uid := name_or nm uid]> (_names st) in
  let st' := {| _data := <[uid := df]> (_data st); _names := names' |} in
  Ok ({| dataset_id := uid;
         name := default uid (names' !! uid);
         meta_rows := len df;
         meta_columns := columns df |}, st').

Definition put_records (st : DatasetStore) (uid : string)
    (records : list Record_) (nm : option string)
    : Result (DatasetMeta * DatasetStore) :=
  let df := from_records records in
  put_dataframe st uid df nm.

(** routes.py, [POST /datasets/json]: the route's result is the store after
    the call and the four fields of the metadata. *)
Definition ingest_json (st : DatasetStore) (uid : string)
    (records : list Record_) (nm : option string)
    : Result (DatasetMeta * DatasetStore) :=
  match records with
  | [] => Err (HTTPException 400)
  | _ :: _ => put_records st uid records nm
  end.

(** ** Columns of a frame *)

(* the positions at which a label occurs among the column labels *)
Definition positions (c : string) (cols : list string) : list nat :=
  map fst
    (filter (fun ic => String.eqb (snd ic) c)
       (combine (seq 0 (length cols)) cols)).

(* the number of columns that carry a label *)
Definition occurrences (c : string) (cols : list string) : nat :=
  count_occ String.string_dec cols c.

Definition cell (r : list Scalar) (i : nat) : Scalar := nth i r Null.

(** [df[c]]: a Series when the label occurs once, a DataFrame when it is
    duplicated, a KeyError when it is absent. *)
Inductive Item : Type :=
| Series (cells : list Scalar)
| SubFrame
| NoItem.

Definition getitem (df : DataFrame) (c : string) : Item :=
  match positions c (columns df) with
  | [] => NoItem
  | [i] => Series (map (fun r => cell r i) (rows df))
  | _ :: _ :: _ => SubFrame
  end.

(* df[[c1, ..., cn]] *)
Definition select (df : DataFrame) (cs : list string) : DataFrame :=
  let idx := flat_map (fun c => positions c (columns df)) cs in
  {| columns := map (fun i => nth i (columns df) EmptyString) idx;
     rows := map (fun r => map (cell r) idx) (rows df) |}.

(** A dict literal [{k1: v1, ..., kn: vn}] as a label mapping: a later
    binding of a key replaces an earlier one. *)
Definition dict_literal_get (m : list (string * string)) (k : string)
    : option string :=
  match find (fun kv => String.eqb (fst kv) k) (rev m) with
  | Some kv => Some (snd kv)
  | None => None
  end.

(* the label of a column after df.rename(columns=m) *)
Definition relabel (m : list (string * string)) (c : string) : string :=
  match dict_literal_get m c with Some c' => c' | None => c end.

(* df.rename(columns=m), on the labels *)
Definition rename (m : list (string * string)) (cols : list string)
    : list string :=
  map (relabel m) cols.

(** analytics.py, [_require_columns] *)
Definition _require_columns (df : DataFrame) (cols : list string)
    : Result unit :=
  match filter (fun c => negb (has_column df c)) cols with
  | [] => Ok tt
  | missing => Err (ValueError_missing missing)
  end.

(** ** Coercion and reduction *)

(* pd.to_numeric(_, errors="coerce") on one cell; None is NaN *)
Definition to_numeric `{Runtime} (c : Scalar) : option Q :=
  match c with
  | Null => None
  | Num q => Some q
  | Str s => parse_float s
  end.

Inductive Agg : Type := Sum | Mean | Min | Max | Count.

(** The five reductions named by the specification.  A name that is not a
    reduction raises AttributeError; the other reductions of pandas
    (median, std, ...) are outside the model, which raises on them too. *)
Definition parse_agg (agg : string) : Result Agg :=
  if String.eqb agg "sum" then Ok Sum
  else if String.eqb agg "mean" then Ok Mean
  else if String.eqb agg "min" then Ok Min
  else if String.eqb agg "max" then Ok Max
  else if String.eqb agg "count" then Ok Count
  else Err AttributeError.

(* the cells as numbers, when every one of them is a number *)
Fixpoint nums_of (vs : list Scalar) : option (list Q) :=
  match vs with
  | [] => Some []
  | Num q :: vs' =>
      match nums_of vs' with Some qs => Some (q :: qs) | None => None end
  | _ :: _ => None
  end.

(* the cells as strings, when every one of them is a string *)
Fixpoint strs_of (vs : list Scalar) : option (list string) :=
  match vs with
  | [] => Some []
  | Str s :: vs' =>
      match strs_of vs' with Some ss => Some (s :: ss) | None => None end
  | _ :: _ => None
  end.

Definition Qsum (qs : list Q) : Q := fold_left Qplus qs 0%Q.

Definition Qmin_list (q : Q) (qs : list Q) : Q :=
  fold_left (fun m x => if Qle_bool m x then m else x) qs q.

Definition Qmax_list (q : Q) (qs : list Q) : Q :=
  fold_left (fun m x => if Qle_bool x m then m else x) qs q.

Definition str_leb (s t : string) : bool :=
  match String_as_OT.compare s t with Gt => false | _ => true end.

Definition str_min_list (s : string) (ss : list string) : string :=
  fold_left (fun m x => if str_leb m x then m else x) ss s.

Definition str_max_list (s : string) (ss : list string) : string :=
  fold_left (fun m x => if str_leb x m then m else x) ss s.

(** The reduction of the cells of one group, as pandas computes it on the
    raw column: missing cells are skipped; numbers are reduced as numbers;
    on a column of strings [sum] concatenates and [min]/[max] compare by
    code point; [count] counts every cell that is not missing; a group that
    mixes numbers and strings, or a [mean] over strings, is a TypeError. *)
Definition reduce (a : Agg) (vs : list Scalar) : Result Scalar :=
  let present := filter notna vs in
  match a with
  | Count => Ok (Num (inject_Z (Z.of_nat (length present))))
  | Sum =>
      match nums_of present, strs_of present with
      | Some qs, _ => Ok (Num (Qsum qs))
      | None, Some ss => Ok (Str (String.concat EmptyString ss))
      | None, None => Err TypeError
      end
  | Mean =>
      match nums_of present with
      | Some [] => Ok Null
      | Some qs => Ok (Num (Qsum qs / inject_Z (Z.of_nat (length qs))))
      | None => Err TypeError
      end
  | Min =>
      match nums_of present, strs_of present with
      | Some [], _ => Ok Null
      | Some (q :: qs), _ => Ok (Num (Qmin_list q qs))
      | None, Some (s :: ss) => Ok (Str (str_min_list s ss))
      | None, _ => Err TypeError
      end
  | Max =>
      match nums_of present, strs_of present with
      | Some [], _ => Ok Null
      | Some (q :: qs), _ => Ok (Num (Qmax_list q qs))
      | None, Some (s :: ss) => Ok (Str (str_max_list s ss))
      | None, _ => Err TypeError
      end
  end.

(** ** Grouping *)

(** [groupby(key, sort=True, dropna=False)]: one group per distinct key,
    the groups in ascending key order, the cells of a group in row order. *)
Fixpoint group_insert {K V : Type} (cmp : K -> K -> comparison)
    (k : K) (v : V) (gs : list (K * list V)) : list (K * list V) :=
  match gs with
  | [] => [(k, [v])]
  | (k', vs) :: gs' =>
      match cmp k k' with
      | Eq => (k', (vs ++ [v])%list) :: gs'
      | Lt => (k, [v]) :: gs
      | Gt => (k', vs) :: group_insert cmp k v gs'
      end
  end.

Definition groupby {K V : Type} (cmp : K -> K -> comparison)
    (kvs : list (K * V)) : list (K * list V) :=
  fold_left (fun gs kv => group_insert cmp (fst kv) (snd kv) gs) kvs [].

(** ** analytics.py, [region_aggregate] *)

(* a row of the aggregated frame, columns "region" and "value" *)
Record AggRow : Type := { agg_region : Scalar; agg_value : Q }.

(** [sort_values("value", ascending=False, kind="mergesort")] on rows whose
    value is a number: a stable sort, here by insertion from the right (a
    row goes in front of the rows it is not smaller than, and all of them
    come after it in the input). *)
Fixpoint insert_desc (x : AggRow) (l : list AggRow) : list AggRow :=
  match l with
  | [] => [x]
  | y :: l' =>
      if Qle_bool (agg_value y) (agg_value x) then x :: l
      else y :: insert_desc x l'
  end.

Definition sort_values_desc (l : list AggRow) : list AggRow :=
  fold_right insert_desc [] l.

(* to_numeric on the "value" column, then dropna(subset=["value"]) *)
Definition coerce_dropna `{Runtime} (g : list (Scalar * Scalar))
    : list AggRow :=
  flat_map
    (fun kv => match to_numeric (snd kv) with
               | Some q => [{| agg_region := fst kv; agg_value := q |}]
               | None => []
               end) g.

(** The frame has the columns [region] and [value] whatever the names of
    the input columns: the rename maps both labels at once.  The optional
    [lat_col]/[lon_col] only attach the columns [lat]/[lon] by a left merge
    on [region], which adds, drops and reorders no row; they are left out. *)
Definition region_aggregate `{Runtime} (df : DataFrame)
    (region_col value_col agg : string) : Result (list AggRow) :=
  let* _ := _require_columns df [region_col; value_col] in
  let* keys := match getitem df region_col with
               | Series cs => Ok cs
               | _ => Err ValueError_pandas
               end in
  let* vals := match getitem df value_col with
               | Series cs => Ok cs
               | _ => Err TypeError
               end in
  (* reset_index cannot insert the key next to a column of the same name *)
  let* _ := if String.eqb region_col value_col
            then Err ValueError_pandas else Ok tt in
  let* a := parse_agg agg in
  let* grouped :=
    mapM (fun g => let* v := reduce a (snd g) in Ok (fst g, v))
      (groupby scalar_compare (combine keys vals)) in
  Ok (sort_values_desc (coerce_dropna grouped)).

(** ** analytics.py, [rankings] *)

Record RegionValue : Type := { region : string; value : Q }.

(* str(r["region"]) *)
Definition str_of_scalar `{Runtime} (c : Scalar) : string :=
  match c with
  | Str s => s
  | Num q => num_repr q
  | Null => "nan"
  end.

(* RegionValue(region=str(r["region"]), value=float(r["value"])) *)
Definition region_value_of `{Runtime} (r : AggRow) : RegionValue :=
  {| region := str_of_scalar (agg_region r); value := agg_value r |}.

Definition rankings `{Runtime} (df : DataFrame)
    (region_col value_col agg : string) (top_n : Z)
    : Result (list RegionValue * list RegionValue) :=
  let* agg_df := region_aggregate df region_col value_col agg in
  let values := map region_value_of agg_df in
  let n := Z.to_nat (Z.max 0 top_n) in
  (* values[:n] *)
  let top := firstn n values in
  (* values[-n:] for n > 0 is the last n rows, all of them when n >= len *)
  let bottom := if (0 <? top_n)%Z
                then rev (skipn (length values - n) values)
                else [] in
  Ok (top, bottom).

(** ** Number formatting *)

(* the nearest integer, ties to even *)
Definition round_half_even (q : Q) : Z :=
  let f := Qfloor q in
  match (q - inject_Z f ?= 1 # 2)%Q with
  | Lt => f
  | Gt => (f + 1)%Z
  | Eq => if Z.even f then f else (f + 1)%Z
  end.

Definition digits (n : Z) : string :=
  NilZero.string_of_uint (N.to_uint (Z.to_N n)).

Fixpoint zeros (n : nat) : string :=
  match n with O => EmptyString | S n' => "0" ++ zeros n' end.

Definition pad_left (w : nat) (s : string) : string :=
  zeros (w - String.length s) ++ s.

Fixpoint commas_rev (l : list ascii) (i : nat) : list ascii :=
  match l with
  | [] => []
  | c :: l' =>
      if (i =? 3)%nat then ","%char :: c :: commas_rev l' 1
      else c :: commas_rev l' (S i)
  end.

(* 1234567 -> 1,234,567 *)
Definition thousands (s : string) : string :=
  string_of_list_ascii (rev (commas_rev (rev (list_ascii_of_string s)) 0)).

(** [f"{q:,.df}"] (with [comma]) and [f"{q:.df}"] (without), on an exact
    rational. *)
Definition format_fixed (comma : bool) (d : nat) (q : Q) : string :=
  let p := (10 ^ Z.of_nat d)%Z in
  let n := round_half_even (Qabs q * inject_Z p) in
  let ip := digits (n / p) in
  let sign := match (q ?= 0)%Q with Lt => "-" | _ => EmptyString end in
  sign ++ (if comma then thousands ip else ip)
       ++ match d with
          | O => EmptyString
          | S _ => "." ++ pad_left d (digits (n mod p))
          end.

(** ** analytics.py, [executive_summary] *)

(* a Python dict with string keys, in insertion order *)
Definition dict_set {V : Type} (d : list (string * V)) (k : string) (v : V)
    : list (string * V) :=
  if existsb (fun kv => String.eqb (fst kv) k) d
  then map (fun kv => if String.eqb (fst kv) k then (k, v) else kv) d
  else (d ++ [(k, v)])%list.

Definition dict_setdefault {V : Type} (d : list (string * V)) (k : string)
    (v : V) : list (string * V) :=
  if existsb (fun kv => String.eqb (fst kv) k) d then d
  else (d ++ [(k, v)])%list.

Record Summary : Type := {
  summary : string;
  key_findings : list string;
  regional_comparison : list (string * list (string * string))
}.

(* the local function pct of executive_summary *)
Definition pct (total v : Q) : Q :=
  if Qeq_bool total 0 then 0%Q else ((v / total) * 100)%Q.

Definition finding (label : string) (total : Q) (metric : string)
    (rv : RegionValue) : string :=
  label ++ " region: " ++ region rv ++ " ("
    ++ format_fixed true 2 (value rv) ++ " " ++ metric ++ ", "
    ++ format_fixed false 1 (pct total (value rv)) ++ "% of total).".

Definition summary_sentence (best worst : RegionValue)
    (metric agg : string) : string :=
  region best ++ " leads on " ++ metric ++ " (" ++ agg ++ "), while "
    ++ region worst ++ " lags.".

(** The dict [regional_comparison]: the rows of [top] are assigned, then
    the rows of [bottom] are added with [setdefault]. *)
Definition comparison_of (metric agg : string)
    (top bottom : list RegionValue)
    : list (string * list (string * string)) :=
  let entry := fun rv : RegionValue =>
    [(metric ++ "_" ++ agg, format_fixed true 2 (value rv))] in
  fold_left (fun d rv => dict_setdefault d (region rv) (entry rv)) bottom
    (fold_left (fun d rv => dict_set d (region rv) (entry rv)) top []).

Definition executive_summary `{Runtime} (df : DataFrame)
    (metric region_col value_col agg : string) (top_n : Z)
    : Result Summary :=
  let* agg_df := region_aggregate df region_col value_col agg in
  match agg_df with
  | [] =>
      Ok {| summary :=
              "No analyzable data after validation (missing/invalid numeric values).";
            key_findings := [];
            regional_comparison := [] |}
  | _ :: _ =>
      let total := Qsum (map agg_value agg_df) in
      let* tb := rankings df region_col value_col agg top_n in
      let top := fst tb in
      let bottom := snd tb in
      (* best = top[0] *)
      let* best := match top with
                   | b :: _ => Ok b
                   | [] => Err IndexError
                   end in
      (* worst = bottom[0] if bottom else top[-1] *)
      let* worst := match bottom with
                    | w :: _ => Ok w
                    | [] => match rev top with
                            | w :: _ => Ok w
                            | [] => Err IndexError
                            end
                    end in
      Ok {| summary := summary_sentence best worst metric agg;
            key_findings :=
              [ finding "Top" total metric best;
                finding "Bottom" total metric worst;
                "Total across regions: " ++ format_fixed true 2 total
                  ++ " " ++ metric ++ "." ];
            regional_comparison := comparison_of metric agg top bottom |}
  end.

(** routes.py, [GET /analytics/executive-summary].  [Query(3, ge=1, le=10)]
    rejects a [top_n] outside 1..10 before the body runs (HTTP 422); the
    body turns a KeyError into 404 and a ValueError into 400, and lets any
    other exception through.  The result is the summary and the
    [dataset_id] added to it. *)
Definition analytics_executive_summary `{Runtime} (st : DatasetStore)
    (id metric region_col value_col agg : string) (top_n : Z)
    : Result (Summary * string) :=
  if negb ((1 <=? top_n)%Z && (top_n <=? 10)%Z) then Err (HTTPException 422)
  else
    match get st id with
    | Err (KeyError _) => Err (HTTPException 404)
    | Err e => Err e
    | Ok df =>
        match executive_summary df metric region_col value_col agg top_n with
        | Err (ValueError_missing _) => Err (HTTPException 400)
        | Err ValueError_pandas => Err (HTTPException 400)
        | Err e => Err e
        | Ok out => Ok (out, id)
        end
    end.

(** ** analytics.py, [trends] *)

Definition bucket_col : string := "__bucket__".

(* group keys of trends: the bucket, then the region *)
Definition bucket_region_compare (a b : Z * Scalar) : comparison :=
  match (fst a ?= fst b)%Z with
  | Eq => scalar_compare (snd a) (snd b)
  | c => c
  end.

(* the order of two rows on the cells at the positions [idx], in turn *)
Definition row_compare (idx : list nat) (r1 r2 : list Scalar) : comparison :=
  fold_right
    (fun i rest => match scalar_compare (cell r1 i) (cell r2 i) with
                   | Eq => rest
                   | c => c
                   end) Eq idx.

(* [r1] does not come after [r2] *)
Definition row_le (idx : list nat) (r1 r2 : list Scalar) : Prop :=
  row_compare idx r1 r2 <> Gt.

Fixpoint insert_row (idx : list nat) (x : list Scalar)
    (l : list (list Scalar)) : list (list Scalar) :=
  match l with
  | [] => [x]
  | y :: l' =>
      match row_compare idx x y with
      | Gt => y :: insert_row idx x l'
      | _ => x :: l
      end
  end.

(** [df.sort_values(by)]: ascending, missing cells last, rows that agree on
    [by] in their input order.  Every label of [by] names one column. *)
Definition sort_values (df : DataFrame) (by_ : list string)
    : Result DataFrame :=
  let* idx := mapM (fun c => match positions c (columns df) with
                             | [i] => Ok i
                             | [] => Err (KeyError c)
                             | _ :: _ :: _ => Err ValueError_pandas
                             end) by_ in
  Ok {| columns := columns df;
        rows := fold_right (insert_row idx) [] (rows df) |}.

(** The three selected columns are kept by position ([date_col],
    [region_col], [value_col]) next to their labels.  After the group-by the
    frame has one row per (bucket, region) in ascending order of that pair,
    and its labels go through the two renames of the source; the bucket is
    then read back through the label [bucket_col], which must name the one
    column at position 0. *)
Definition trends `{Runtime} (df : DataFrame)
    (date_col region_col value_col agg freq : string) : Result DataFrame :=
  let* _ := _require_columns df [date_col; region_col; value_col] in
  let tmp := select df [date_col; region_col; value_col] in
  (* tmp[date_col] = pd.to_datetime(tmp[date_col], errors="coerce", utc=True) *)
  let* dates := match getitem tmp date_col with
                | Series cs => Ok (map to_datetime cs)
                | _ => Err ValueError_pandas
                end in
  (* tmp[value_col] = pd.to_numeric(tmp[value_col], errors="coerce") *)
  let* values := match getitem tmp value_col with
                 | Series cs => Ok (map to_numeric cs)
                 | _ => Err TypeError
                 end in
  let* regions := match getitem tmp region_col with
                  | Series cs => Ok cs
                  | _ => Err ValueError_pandas
                  end in
  (* tmp.dropna(subset=[date_col, value_col]) *)
  let kept :=
    flat_map (fun drv => match fst (fst drv), snd drv with
                         | Some t, Some q => [(t, snd (fst drv), q)]
                         | _, _ => []
                         end)
      (combine (combine dates regions) values) in
  let freq := if String.eqb freq "M" then "ME" else freq in
  let* bucket := match freq_bucket freq with
                 | Some b => Ok b
                 | None => Err ValueError_pandas
                 end in
  let* a := parse_agg agg in
  let* out :=
    mapM (fun g => let* v := reduce a (snd g) in Ok (fst g, v))
      (groupby bucket_region_compare
         (map (fun trq => ((bucket (fst (fst trq)), snd (fst trq)),
                           Num (snd trq))) kept)) in
  let labels := rename [(region_col, "region"); (value_col, "value")]
                  [date_col; region_col; value_col] in
  let labels := rename [(date_col, bucket_col)] labels in
  (* out["date"] = out[bucket_col].dt.date.astype(str); a label that names
     two columns selects a frame, which has no accessor .dt *)
  match positions bucket_col labels with
  | [O] =>
      sort_values
        {| columns := [nth 1 labels EmptyString; nth 2 labels EmptyString; "date"];
           rows := map (fun g => [snd (fst g); snd g;
                                  Str (date_str (fst (fst g)))]) out |}
        ["date"; "region"]
  | _ => Err AttributeError
  end.

(** ** A concrete runtime

    Decimal literals for numbers, ISO calendar dates [YYYY-MM-DD] for
    dates; a timestamp is a day number (days since 1970-01-01), and the
    frequencies are day, month end and year end. *)

Definition digit_of (c : ascii) : option Z :=
  let n := Z.of_nat (nat_of_ascii c) in
  if ((48 <=? n) && (n <=? 57))%Z then Some (n - 48)%Z else None.

Fixpoint parse_digits (acc : Z) (l : list ascii) : option Z :=
  match l with
  | [] => Some acc
  | c :: l' =>
      match digit_of c with
      | Some d => parse_digits (10 * acc + d)%Z l'
      | None => None
      end
  end.

Definition parse_uint (l : list ascii) : option Z :=
  match l with [] => None | _ :: _ => parse_digits 0 l end.

Fixpoint split_dot (l : list ascii) : list ascii * option (list ascii) :=
  match l with
  | [] => ([], None)
  | c :: l' =>
      if Ascii.eqb c "."%char then ([], Some l')
      else let r := split_dot l' in (c :: fst r, snd r)
  end.

(* [+-]digits[.digits] *)
Definition parse_decimal (s : string) : option Q :=
  let l := list_ascii_of_string s in
  let sb := match l with
            | c :: r => if Ascii.eqb c "-"%char then (true, r)
                        else if Ascii.eqb c "+"%char then (false, r)
                        else (false, l)
            | [] => (false, l)
            end in
  let parts := split_dot (snd sb) in
  let mag :=
    match parse_uint (fst parts), snd parts with
    | Some i, None => Some (inject_Z i)
    | Some i, Some fl =>
        match parse_uint fl with
        | Some f =>
            Some (Qred (inject_Z i
                        + Qmake f (Pos.pow 10 (Pos.of_nat (length fl)))))
        | None => None
        end
    | None, _ => None
    end in
  match mag with
  | Some q => Some (if fst sb then Qopp q else q)
  | None => None
  end.

(* days since 1970-01-01 of a date of the proleptic Gregorian calendar *)
Definition days_from_civil (y m d : Z) : Z :=
  let y' := if (m <=? 2)%Z then (y - 1)%Z else y in
  let era := (y' / 400)%Z in
  let yoe := (y' - era * 400)%Z in
  let mp := if (2 <? m)%Z then (m - 3)%Z else (m + 9)%Z in
  let doy := ((153 * mp + 2) / 5 + d - 1)%Z in
  let doe := (yoe * 365 + yoe / 4 - yoe / 100 + doy)%Z in
  (era * 146097 + doe - 719468)%Z.

Definition civil_from_days (z : Z) : Z * Z * Z :=
  let z' := (z + 719468)%Z in
  let era := (z' / 146097)%Z in
  let doe := (z' - era * 146097)%Z in
  let yoe := ((doe - doe / 1460 + doe / 36524 - doe / 146096) / 365)%Z in
  let doy := (doe - (365 * yoe + yoe / 4 - yoe / 100))%Z in
  let mp := ((5 * doy + 2) / 153)%Z in
  let d := (doy - (153 * mp + 2) / 5 + 1)%Z in
  let m := if (mp <? 10)%Z then (mp + 3)%Z else (mp - 9)%Z in
  let y := (yoe + era * 400)%Z in
  (if (m <=? 2)%Z then (y + 1)%Z else y, m, d).

Definition month_end (z : Z) : Z :=
  let ymd := civil_from_days z in
  let y := fst (fst ymd) in
  let m := snd (fst ymd) in
  if (m =? 12)%Z then (days_from_civil (y + 1) 1 1 - 1)%Z
  else (days_from_civil y (m + 1) 1 - 1)%Z.

Definition year_end (z : Z) : Z :=
  days_from_civil (fst (fst (civil_from_days z))) 12 31.

Definition parse_iso_date (s : string) : option Z :=
  match list_ascii_of_string s with
  | [y1; y2; y3; y4; s1; m1; m2; s2; d1; d2] =>
      if Ascii.eqb s1 "-"%char && Ascii.eqb s2 "-"%char then
        match parse_uint [y1; y2; y3; y4], parse_uint [m1; m2],
              parse_uint [d1; d2] with
        | Some y, Some m, Some d =>
            let z := days_from_civil y m d in
            (* the date exists when it is the date of its day number *)
            if ((1 <=? m) && (m <=? 12) && (1 <=? d)
                && (z <=? month_end (days_from_civil y m 1)))%Z
            then Some z else None
        | _, _, _ => None
        end
      else None
  | _ => None
  end.

Definition iso_date_str (z : Z) : string :=
  let ymd := civil_from_days z in
  pad_left 4 (digits (fst (fst ymd))) ++ "-"
    ++ pad_left 2 (digits (snd (fst ymd))) ++ "-"
    ++ pad_left 2 (digits (snd ymd)).

#[export] Instance iso_runtime : Runtime := {|
  parse_float := parse_decimal;
  num_repr := format_fixed false 1;
  to_datetime := fun c => match c with
                          | Str s => parse_iso_date s
                          | _ => None
                          end;
  freq_bucket := fun f => if String.eqb f "D" then Some (fun z => z)
                          else if String.eqb f "ME" then Some month_end
                          else if String.eqb f "YE" then Some year_end
                          else None;
  date_str := iso_date_str
|}.

(** ** The scenarios of the specification and of the test suite *)

(* tests/test_api.py, test_ingest_json_and_analytics *)
Definition payload : list Record_ :=
  [ [("region", Str "A"); ("lat", Num 10); ("lon", Num 10);
     ("date", Str "2025-01-01"); ("revenue", Num 100)];
    [("region", Str "A"); ("lat", Num 10); ("lon", Num 10);
     ("date", Str "2025-02-01"); ("revenue", Num 150)];
    [("region", Str "B"); ("lat", Num 20); ("lon", Num 20);
     ("date", Str "2025-01-01"); ("revenue", Num 90)] ].

(** ** The readings of the specification that the properties compare with *)

(** Region aggregation as section 4.2 words it: [value_col] is coerced
    first, a cell that cannot be coerced becomes missing, and the groups
    are reduced afterwards. *)
Definition region_aggregate_coerce_first `{Runtime} (df : DataFrame)
    (region_col value_col agg : string) : Result (list AggRow) :=
  let* _ := _require_columns df [region_col; value_col] in
  let* keys := match getitem df region_col with
               | Series cs => Ok cs
               | _ => Err ValueError_pandas
               end in
  let* vals := match getitem df value_col with
               | Series cs => Ok cs
               | _ => Err TypeError
               end in
  let* _ := if String.eqb region_col value_col
            then Err ValueError_pandas else Ok tt in
  let* a := parse_agg agg in
  let coerced :=
    map (fun c => match to_numeric c with Some q => Num q | None => Null end)
      vals in
  let* grouped :=
    mapM (fun g => let* v := reduce a (snd g) in Ok (fst g, v))
      (groupby scalar_compare (combine keys coerced)) in
  Ok (sort_values_desc (coerce_dropna grouped)).

(* the position of the first row whose region is [k] *)
Fixpoint first_row (k : Scalar) (keys : list Scalar) : nat :=
  match keys with
  | [] => O
  | k' :: keys' =>
      match scalar_compare k k' with
      | Eq => O
      | _ => S (first_row k keys')
      end
  end.

(** Section 4.2, step 5: rows of equal value stand in the order in which
    their regions were first met in the input. *)
Definition ties_in_first_seen_order (keys : list Scalar)
    (out : list AggRow) : Prop :=
  forall (i j : nat) (a b : AggRow),
    (i < j)%nat -> nth_error out i = Some a -> nth_error out j = Some b ->
    (agg_value a == agg_value b)%Q ->
    (first_row (agg_region a) keys < first_row (agg_region b) keys)%nat.

(** What the code does instead: rows of equal value stand in ascending
    order of the region key. *)
Definition value_desc_then_region (a b : AggRow) : Prop :=
  (agg_value b < agg_value a)%Q
  \/ ((agg_value a == agg_value b)%Q
      /\ scalar_lt (agg_region a) (agg_region b)).

(* no two rows have the same region *)
Definition distinct_regions (l : list AggRow) : Prop :=
  NoDupA scalar_eq (map agg_region l).

(** Section 4.5: the worst region is the last of the bottom ranking, or the
    last of the top ranking when the bottom one is empty. *)
Definition last_of_bottom_or_top (top bottom : list RegionValue)
    : option RegionValue :=
  match rev bottom with
  | w :: _ => Some w
  | [] => hd_error (rev top)
  end.

(* the summary names [best] and [worst] *)
Definition names_best_worst (res : Summary) (total : Q)
    (metric agg : string) (best worst : RegionValue) : Prop :=
  summary res = summary_sentence best worst metric agg
  /\ nth_error (key_findings res) 0 = Some (finding "Top" total metric best)
  /\ nth_error (key_findings res) 1
     = Some (finding "Bottom" total metric worst).

(** ** Concrete datasets *)

Definition empty_store : DatasetStore := {| _data := ∅; _names := ∅ |}.

(* one region, one value that is not a number *)
Definition uncoercible_payload : list Record_ :=
  [ [("region", Str "A"); ("revenue", Str "abc")];
    [("region", Str "A"); ("revenue", Num 5)] ].

(* two regions of equal value, the greater key first *)
Definition tie_payload : list Record_ :=
  [ [("region", Str "B"); ("revenue", Num 1)];
    [("region", Str "A"); ("revenue", Num 1)] ].

Definition two_regions_payload : list Record_ :=
  [ [("region", Str "A"); ("revenue", Num 2)];
    [("region", Str "B"); ("revenue", Num 1)] ].

Definition zero_payload : list Record_ :=
  [ [("region", Str "A"); ("revenue", Num 0)];
    [("region", Str "B"); ("revenue", Num 0)] ].

(* the dates are in a column named "value" *)
Definition date_in_value_payload : list Record_ :=
  [ [("value", Str "2025-01-01"); ("region", Str "A"); ("revenue", Num 100)];
    [("value", Str "2025-02-01"); ("region", Str "A"); ("revenue", Num 150)];
    [("value", Str "2025-01-01"); ("region", Str "B"); ("revenue", Num 90)] ].

(** ** store.py, [list] and the module-level store *)

(* the entry of one stored dataset *)
Definition meta_of (st : DatasetStore) (id : string) (df : DataFrame)
    : DatasetMeta :=
  {| dataset_id := id;
     name := default id (_names st !! id);
     meta_rows := len df;
     meta_columns := columns df |}.

(** [sorted(out, key=lambda m: m.name.lower())]: a stable sort, by insertion
    from the right.  [lower] is [str.lower]. *)
Fixpoint insert_meta (lower : string -> string) (x : DatasetMeta)
    (l : list DatasetMeta) : list DatasetMeta :=
  match l with
  | [] => [x]
  | y :: l' =>
      if str_leb (lower (name x)) (lower (name y)) then x :: l
      else y :: insert_meta lower x l'
  end.

(* the order of the entries of [list] *)
Definition name_le (lower : string -> string) (a b : DatasetMeta) : Prop :=
  str_leb (lower (name a)) (lower (name b)) = true.

(** [DatasetStore.list].  The store keeps the mapping and not the order in
    which the dict was filled: [order] is the sequence of the keys of
    [self._data] as the loop meets them. *)
Definition store_list (lower : string -> string) (order : list string)
    (st : DatasetStore) : list DatasetMeta :=
  fold_right (insert_meta lower) []
    (flat_map (fun id => match _data st !! id with
                         | Some df => [meta_of st id df]
                         | None => []
                         end) order).

(* [order] lists the keys of the store, each once *)
Definition enumerates (order : list string) (st : DatasetStore) : Prop :=
  NoDup order /\ forall id, In id order <-> is_Some (_data st !! id).

(* str.lower on the letters A-Z; other characters are kept *)
Definition ascii_lower_char (c : ascii) : ascii :=
  let n := nat_of_ascii c in
  if ((65 <=? n) && (n <=? 90))%nat then ascii_of_nat (n + 32) else c.

Fixpoint ascii_lower (s : string) : string :=
  match s with
  | EmptyString => EmptyString
  | String c s' => String (ascii_lower_char c) (ascii_lower s')
  end.

Definition _sample_dataset : DataFrame :=
  from_records
    [ [("region", Str "North America"); ("lat", Num (3709 # 100));
       ("lon", Num (- (9571 # 100))); ("date", Str "2025-10-01");
       ("revenue", Num 410000)];
      [("region", Str "North America"); ("lat", Num (3709 # 100));
       ("lon", Num (- (9571 # 100))); ("date", Str "2025-11-01");
       ("revenue", Num 390000)];
      [("region", Str "North America"); ("lat", Num (3709 # 100));
       ("lon", Num (- (9571 # 100))); ("date", Str "2025-12-01");
       ("revenue", Num 420000)];
      [("region", Str "Europe"); ("lat", Num (5452 # 100));
       ("lon", Num (1525 # 100)); ("date", Str "2025-10-01");
       ("revenue", Num 270000)];
      [("region", Str "Europe"); ("lat", Num (5452 # 100));
       ("lon", Num (1525 # 100)); ("date", Str "2025-11-01");
       ("revenue", Num 280000)];
      [("region", Str "Europe"); ("lat", Num (5452 # 100));
       ("lon", Num (1525 # 100)); ("date", Str "2025-12-01");
       ("revenue", Num 300000)];
      [("region", Str "South America"); ("lat", Num (- (1424 # 100)));
       ("lon", Num (- (5193 # 100))); ("date", Str "2025-10-01");
       ("revenue", Num 120000)];
      [("region", Str "South America"); ("lat", Num (- (1424 # 100)));
       ("lon", Num (- (5193 # 100))); ("date", Str "2025-11-01");
       ("revenue", Num 125000)];
      [("region", Str "South America"); ("lat", Num (- (1424 # 100)));
       ("lon", Num (- (5193 # 100))); ("date", Str "2025-12-01");
       ("revenue", Num 130000)];
      [("region", Str "APAC"); ("lat", Num (3405 # 100));
       ("lon", Num (10062 # 100)); ("date", Str "2025-10-01");
       ("revenue", Num 310000)];
      [("region", Str "APAC"); ("lat", Num (3405 # 100));
       ("lon", Num (10062 # 100)); ("date", Str "2025-11-01");
       ("revenue", Num 330000)];
      [("region", Str "APAC"); ("lat", Num (3405 # 100));
       ("lon", Num (10062 # 100)); ("date", Str "2025-12-01");
       ("revenue", Num 340000)] ].

Definition SAMPLE_DATASET_ID : string := "sample".

(* the store after the module-level bootstrap *)
Definition STORE : DatasetStore :=
  {| _data := <[SAMPLE_DATASET_ID := _sample_dataset]> ∅;
     _names := <[SAMPLE_DATASET_ID := "Sample dataset"]> ∅ |}.

(** ** routes.py, the other routes *)

(* df.head(n) for n >= 0 *)
Definition df_head (n : nat) (df : DataFrame) : DataFrame :=
  {| columns := columns df; rows := firstn n (rows df) |}.

(** [df.to_dict(orient="records")]: one dict per row, filled label by
    label. *)
Definition to_dict_records (df : DataFrame) : list Record_ :=
  map (fun r => fold_left (fun d kv => dict_set d (fst kv) (snd kv))
                  (combine (columns df) r) [])
    (rows df).

(* a KeyError of the store becomes 404 *)
Definition get_or_404 (st : DatasetStore) (id : string) : Result DataFrame :=
  match get st id with
  | Err (KeyError _) => Err (HTTPException 404)
  | r => r
  end.

(* a ValueError becomes 400, any other exception goes through *)
Definition value_error_400 {A : Type} (r : Result A) : Result A :=
  match r with
  | Err (ValueError_missing _) => Err (HTTPException 400)
  | Err ValueError_pandas => Err (HTTPException 400)
  | r => r
  end.

(* GET /datasets *)
Definition list_datasets (lower : string -> string) (order : list string)
    (st : DatasetStore) : list DatasetMeta :=
  store_list lower order st.

Record SchemaOut : Type := {
  schema_dataset_id : string;
  schema_columns : list string;
  schema_rows : nat
}.

(* GET /datasets/{dataset_id}/schema *)
Definition dataset_schema (st : DatasetStore) (id : string)
    : Result SchemaOut :=
  let* df := get_or_404 st id in
  Ok {| schema_dataset_id := id;
        schema_columns := columns df;
        schema_rows := len df |}.

Record PreviewOut : Type := {
  preview_dataset_id : string;
  preview_rows : nat;
  preview : list Record_
}.

(** [GET /datasets/{dataset_id}/preview]; [Query(10, ge=1, le=200)] rejects
    a [limit] outside 1..200 before the body runs (HTTP 422). *)
Definition dataset_preview (st : DatasetStore) (id : string) (limit : Z)
    : Result PreviewOut :=
  if negb ((1 <=? limit)%Z && (limit <=? 200)%Z) then Err (HTTPException 422)
  else
    let* df := get_or_404 st id in
    Ok {| preview_dataset_id := id;
          preview_rows := len df;
          preview := to_dict_records (df_head (Z.to_nat limit) df) |}.

Record RegionsOut : Type := {
  regions_dataset_id : string;
  regions_value_col : string;
  regions_agg : string;
  regions : list AggRow
}.

(* GET /analytics/regions *)
Definition analytics_regions `{Runtime} (st : DatasetStore)
    (id value_col region_col agg : string) : Result RegionsOut :=
  let* df := get_or_404 st id in
  let* out := value_error_400
                (region_aggregate df region_col value_col agg) in
  Ok {| regions_dataset_id := id;
        regions_value_col := value_col;
        regions_agg := agg;
        regions := out |}.

Record TrendsOut : Type := {
  trends_dataset_id : string;
  trends_value_col : string;
  trends_agg : string;
  trends_freq : string;
  series : list Record_
}.

(* GET /analytics/trends *)
Definition analytics_trends `{Runtime} (st : DatasetStore)
    (id date_col region_col value_col agg freq : string)
    : Result TrendsOut :=
  let* df := get_or_404 st id in
  let* out := value_error_400
                (trends df date_col region_col value_col agg freq) in
  Ok {| trends_dataset_id := id;
        trends_value_col := value_col;
        trends_agg := agg;
        trends_freq := freq;
        series := to_dict_records out |}.

(** ** Quantities the properties speak of *)

(* the numbers of a column, missing cells left out *)
Definition numeric_cells (vs : list Scalar) : list Q :=
  flat_map (fun c => match c with Num q => [q] | _ => [] end) vs.

(* a cell is a number or missing *)
Definition numeric_or_missing (c : Scalar) : Prop :=
  match c with Str _ => False | _ => True end.

(* the summary returned when the aggregation has no row *)
Definition no_data_summary : Summary :=
  {| summary :=
       "No analyzable data after validation (missing/invalid numeric values).";
     key_findings := [];
     regional_comparison := [] |}.

(* the same dataset with other rows *)
Definition with_rows (df : DataFrame) (rs : list (list Scalar)) : DataFrame :=
  {| columns := columns df; rows := rs |}.

(* a payload with a record whose date cannot be parsed *)
Definition bad_date_payload : list Record_ :=
  [ [("region", Str "A"); ("date", Str "2025-01-01"); ("revenue", Num 100)];
    [("region", Str "A"); ("date", Str "not a date"); ("revenue", Num 7)];
    [("region", Str "B"); ("date", Str "2025-01-01"); ("revenue", Num 90)] ].

(* a payload with a missing region and missing values *)
Definition gaps_payload : list Record_ :=
  [ [("region", Str "A"); ("revenue", Num 3)];
    [("revenue", Num 4)];
    [("region", Str "A")];
    [("region", Str "B"); ("revenue", Num 5)] ].

(** * Properties *)

(** ** The scenarios *)

Example scenario_regions :
  region_aggregate (from_records payload) "region" "revenue" "sum"
  = Ok [ {| agg_region := Str "A"; agg_value := 250 |};
         {| agg_region := Str "B"; agg_value := 90 |} ].
Proof. vm_compute. reflexivity. Qed.

Example scenario_trends :
  trends (from_records payload) "date" "region" "revenue" "sum" "M"
  = Ok {| columns := ["region"; "value"; "date"];
          rows := [ [Str "A"; Num 100; Str "2025-01-31"];
                    [Str "B"; Num 90; Str "2025-01-31"];
                    [Str "A"; Num 150; Str "2025-02-28"] ] |}.
Proof. vm_compute. reflexivity. Qed.

Example scenario_summary :
  executive_summary (from_records payload) "revenue" "region" "revenue"
    "sum" 3
  = Ok {| summary := "A leads on revenue (sum), while B lags.";
          key_findings :=
            [ "Top region: A (250.00 revenue, 73.5% of total).";
              "Bottom region: B (90.00 revenue, 26.5% of total).";
              "Total across regions: 340.00 revenue." ];
          regional_comparison :=
            [ ("A", [("revenue_sum", "250.00")]);
              ("B", [("revenue_sum", "90.00")]) ] |}.
Proof. vm_compute. reflexivity. Qed.

Example format_examples :
  format_fixed true 2 (1234567 # 1) = "1,234,567.00"
  /\ format_fixed true 2 (-(5 # 2)) = "-2.50"
  /\ format_fixed false 1 (1 # 8) = "0.1"
  /\ format_fixed true 2 (1 # 8) = "0.12"
  /\ format_fixed false 1 0 = "0.0".
Proof. vm_compute. repeat split. Qed.

(** ** The order on group keys *)

Lemma string_compare_antisym (s t : string) :
  String_as_OT.compare t s = CompOpp (String_as_OT.compare s t).
Proof.
  pose proof (@StrictOrder_Irreflexive _ _ String_as_OT.lt_strorder) as Hirr.
  pose proof (@StrictOrder_Transitive _ _ String_as_OT.lt_strorder) as Htr.
  destruct (String_as_OT.compare_spec s t) as [He | Hl | Hg];
    destruct (String_as_OT.compare_spec t s) as [He' | Hl' | Hg'];
    simpl; try reflexivity; unfold String_as_OT.eq in *; subst;
    exfalso.
  - exact (Hirr _ Hl').
  - exact (Hirr _ Hg').
  - exact (Hirr _ Hl).
  - exact (Hirr _ (Htr _ _ _ Hl Hl')).
  - exact (Hirr _ Hg).
  - exact (Hirr _ (Htr _ _ _ Hg Hg')).
Qed.

Lemma scalar_compare_antisym (a b : Scalar) :
  scalar_compare b a = CompOpp (scalar_compare a b).
Proof.
  destruct a, b; simpl; try reflexivity.
  - symmetry. apply Qcompare_antisym.
  - apply string_compare_antisym.
Qed.

Lemma scalar_gt_lt (a b : Scalar) :
  scalar_compare a b = Gt -> scalar_lt b a.
Proof.
  intros H. unfold scalar_lt. rewrite scalar_compare_antisym, H. reflexivity.
Qed.

Lemma scalar_lt_trans (a b c : Scalar) :
  scalar_lt a b -> scalar_lt b c -> scalar_lt a c.
Proof.
  unfold scalar_lt.
  destruct a, b, c; simpl; intros H1 H2; try congruence.
  - apply Qlt_alt. apply Qlt_alt in H1, H2. eapply Qlt_trans; eauto.
  - exact (@StrictOrder_Transitive _ _ String_as_OT.lt_strorder _ _ _ H1 H2).
Qed.

Lemma scalar_lt_not_eq (a b : Scalar) : scalar_lt a b -> ~ scalar_eq a b.
Proof. unfold scalar_lt, scalar_eq. congruence. Qed.

Lemma scalar_eq_sym (a b : Scalar) : scalar_eq a b -> scalar_eq b a.
Proof.
  unfold scalar_eq. intros H. rewrite scalar_compare_antisym, H. reflexivity.
Qed.

(** ** Sorted lists *)

Section Sorted_lists.
Context {A : Type}.
Variable R : A -> A -> Prop.

Lemma StronglySorted_app_inv (l1 l2 : list A) :
  StronglySorted R (l1 ++ l2)%list ->
  StronglySorted R l1 /\ StronglySorted R l2.
Proof.
  induction l1 as [| a l1 IH]; simpl; intros H.
  - split; auto; constructor.
  - inversion H as [| ? ? Hs Hfa]; subst.
    destruct (IH Hs) as (H1 & H2).
    apply Forall_app in Hfa as [Hfa1 Hfa2].
    split; auto; constructor; auto.
Qed.

Lemma StronglySorted_firstn (n : nat) (l : list A) :
  StronglySorted R l -> StronglySorted R (firstn n l).
Proof.
  intros H. rewrite <- (firstn_skipn n l) in H.
  apply StronglySorted_app_inv in H. tauto.
Qed.

Lemma StronglySorted_skipn (n : nat) (l : list A) :
  StronglySorted R l -> StronglySorted R (skipn n l).
Proof.
  intros H. rewrite <- (firstn_skipn n l) in H.
  apply StronglySorted_app_inv in H. tauto.
Qed.

Lemma StronglySorted_snoc (l : list A) (x : A) :
  StronglySorted R l -> Forall (fun a => R a x) l ->
  StronglySorted R (l ++ [x])%list.
Proof.
  induction 1 as [| a l Hs IH Hfa]; simpl; intros Hx.
  - repeat constructor.
  - inversion Hx; subst. constructor; auto.
    apply Forall_app. split; auto.
Qed.
End Sorted_lists.

Lemma StronglySorted_weaken {A : Type} (R S : A -> A -> Prop) (l : list A) :
  (forall a b, R a b -> S a b) -> StronglySorted R l -> StronglySorted S l.
Proof.
  intros HRS. induction 1 as [| a l Hs IH Hfa]; constructor; auto.
  eapply Forall_impl; [| exact Hfa]. auto.
Qed.

Lemma StronglySorted_rev {A : Type} (R : A -> A -> Prop) (l : list A) :
  StronglySorted R l -> StronglySorted (fun a b => R b a) (rev l).
Proof.
  induction 1 as [| a l Hs IH Hfa]; simpl.
  - constructor.
  - apply StronglySorted_snoc; auto.
    apply Forall_rev. exact Hfa.
Qed.

Lemma StronglySorted_map {A B : Type} (R : B -> B -> Prop) (f : A -> B)
    (l : list A) :
  StronglySorted (fun a b => R (f a) (f b)) l -> StronglySorted R (map f l).
Proof.
  induction 1 as [| a l Hs IH Hfa]; simpl; constructor; auto.
  apply Forall_map. exact Hfa.
Qed.

(** ** Grouping yields each key once, in ascending order *)

Section Grouping.
Context {K V : Type}.
Variable cmp : K -> K -> comparison.
Let lt (a b : K) : Prop := cmp a b = Lt.
Hypothesis cmp_gt_lt : forall a b, cmp a b = Gt -> lt b a.
Hypothesis lt_trans : forall a b c, lt a b -> lt b c -> lt a c.

Lemma group_insert_keys (P : K -> Prop) (k : K) (v : V)
    (gs : list (K * list V)) :
  P k -> Forall P (map fst gs) ->
  Forall P (map fst (group_insert cmp k v gs)).
Proof.
  intros Hk. induction gs as [| [k' vs] gs IH]; simpl; intros Hgs.
  - constructor; auto.
  - inversion Hgs; subst.
    destruct (cmp k k'); simpl; constructor; auto.
Qed.

Lemma group_insert_sorted (k : K) (v : V) (gs : list (K * list V)) :
  StronglySorted lt (map fst gs) ->
  StronglySorted lt (map fst (group_insert cmp k v gs)).
Proof.
  induction gs as [| [k' vs] gs IH]; simpl; intros Hs.
  - repeat constructor.
  - inversion Hs as [| ? ? Hs' Hfa]; subst.
    destruct (cmp k k') eqn:Hc; simpl.
    + constructor; auto.
    + constructor; [exact Hs |].
      constructor; [exact Hc |].
      eapply Forall_impl; [| exact Hfa].
      intros c Hkc. exact (lt_trans _ _ _ Hc Hkc).
    + constructor; auto.
      apply group_insert_keys; auto.
Qed.

Lemma groupby_sorted (kvs : list (K * V)) :
  StronglySorted lt (map fst (groupby cmp kvs)).
Proof.
  unfold groupby.
  assert (Hgen : forall gs, StronglySorted lt (map fst gs) ->
            StronglySorted lt
              (map fst (fold_left
                 (fun gs kv => group_insert cmp (fst kv) (snd kv) gs)
                 kvs gs))).
  { induction kvs as [| kv kvs IH]; simpl; intros gs Hgs; auto.
    apply IH. apply group_insert_sorted. exact Hgs. }
  apply Hgen. constructor.
Qed.
End Grouping.

(* reducing the groups keeps their keys *)
Lemma mapM_reduce_keys {K : Type} (a : Agg) (gs : list (K * list Scalar))
    (out : list (K * Scalar)) :
  mapM (fun g => let* v := reduce a (snd g) in Ok (fst g, v)) gs = Ok out ->
  map fst out = map fst gs.
Proof.
  revert out. induction gs as [| g gs IH]; simpl; intros out H.
  - inversion H. reflexivity.
  - destruct (reduce a (snd g)) as [v | e]; simpl in H; [| discriminate].
    destruct (mapM _ gs) as [bs | e]; simpl in H; [| discriminate].
    inversion H; subst. simpl. f_equal. apply IH. reflexivity.
Qed.

Section Coerce_dropna.
Context `{Runtime}.

Lemma coerce_dropna_keys (P : Scalar -> Prop) (g : list (Scalar * Scalar)) :
  Forall P (map fst g) -> Forall P (map agg_region (coerce_dropna g)).
Proof.
  unfold coerce_dropna.
  induction g as [| kv g IH]; simpl; intros Hg; [constructor |].
  inversion Hg; subst.
  destruct (to_numeric (snd kv)); simpl; auto.
Qed.

Lemma coerce_dropna_sorted (g : list (Scalar * Scalar)) :
  StronglySorted scalar_lt (map fst g) ->
  StronglySorted scalar_lt (map agg_region (coerce_dropna g)).
Proof.
  unfold coerce_dropna.
  induction g as [| kv g IH]; simpl; intros Hg; [constructor |].
  inversion Hg as [| ? ? Hs Hfa]; subst.
  destruct (to_numeric (snd kv)); simpl; auto.
  constructor; auto.
  apply (coerce_dropna_keys _ g Hfa).
Qed.
End Coerce_dropna.

(** ** The stable descending sort *)

Lemma insert_desc_Forall (P : AggRow -> Prop) (x : AggRow) (l : list AggRow) :
  P x -> Forall P l -> Forall P (insert_desc x l).
Proof.
  intros Hx. induction 1 as [| y l Hy Hl IH]; simpl.
  - repeat constructor. exact Hx.
  - destruct (Qle_bool (agg_value y) (agg_value x)); repeat constructor; auto.
Qed.

Lemma sort_values_desc_Forall (P : AggRow -> Prop) (l : list AggRow) :
  Forall P l -> Forall P (sort_values_desc l).
Proof.
  induction 1 as [| x l Hx Hl IH]; simpl; [constructor |].
  apply insert_desc_Forall; auto.
Qed.

Lemma insert_desc_perm (x : AggRow) (l : list AggRow) :
  Permutation (x :: l) (insert_desc x l).
Proof.
  induction l as [| y l IH]; simpl; [reflexivity |].
  destruct (Qle_bool (agg_value y) (agg_value x)); [reflexivity |].
  rewrite perm_swap. constructor. exact IH.
Qed.

Lemma sort_values_desc_perm (l : list AggRow) :
  Permutation l (sort_values_desc l).
Proof.
  induction l as [| x l IH]; simpl; [constructor |].
  rewrite <- insert_desc_perm. constructor. exact IH.
Qed.

Lemma value_desc_then_region_le (a b : AggRow) :
  value_desc_then_region a b -> (agg_value b <= agg_value a)%Q.
Proof.
  intros [Hlt | [Heq _]].
  - apply Qlt_le_weak. exact Hlt.
  - rewrite Heq. apply Qle_refl.
Qed.

(** A row whose key is below every key of a sorted list is inserted so that
    the list stays sorted by value, and by key among equal values. *)
Lemma insert_desc_sorted (x : AggRow) (l : list AggRow) :
  Forall (fun z => scalar_lt (agg_region x) (agg_region z)) l ->
  StronglySorted value_desc_then_region l ->
  StronglySorted value_desc_then_region (insert_desc x l).
Proof.
  intros Hk Hs. induction Hs as [| y l Hs IH Hfa]; simpl.
  - repeat constructor.
  - inversion Hk as [| ? ? Hky Hkl]; subst.
    destruct (Qle_bool (agg_value y) (agg_value x)) eqn:Hle.
    + apply Qle_bool_iff in Hle.
      assert (Hxy : forall z, value_desc_then_region y z \/ z = y ->
                scalar_lt (agg_region x) (agg_region z) ->
                value_desc_then_region x z).
      { intros z Hyz Hkz.
        assert (Hzy : (agg_value z <= agg_value y)%Q).
        { destruct Hyz as [Hyz | ->];
            [apply value_desc_then_region_le; exact Hyz | apply Qle_refl]. }
        assert (Hzx : (agg_value z <= agg_value x)%Q)
          by (eapply Qle_trans; eauto).
        apply Qle_lteq in Hzx. destruct Hzx as [Hlt | Heq].
        - left. exact Hlt.
        - right. split; [symmetry; exact Heq | exact Hkz]. }
      constructor; [constructor; assumption |].
      constructor; [apply Hxy; auto |].
      rewrite Forall_forall in Hfa, Hkl. apply Forall_forall.
      intros z Hz. apply Hxy; auto.
    + constructor; [apply IH; exact Hkl |].
      apply insert_desc_Forall; [| exact Hfa].
      left. apply Qnot_le_lt. intros Hc.
      apply Qle_bool_iff in Hc. congruence.
Qed.

Lemma sort_values_desc_sorted (l : list AggRow) :
  StronglySorted scalar_lt (map agg_region l) ->
  StronglySorted value_desc_then_region (sort_values_desc l).
Proof.
  induction l as [| x l IH]; simpl; intros Hs; [constructor |].
  inversion Hs as [| ? ? Hs' Hfa]; subst.
  apply insert_desc_sorted; auto.
  apply sort_values_desc_Forall.
  rewrite Forall_map in Hfa. exact Hfa.
Qed.

(** ** Distinct regions *)

Lemma sorted_keys_distinct (ks : list Scalar) :
  StronglySorted scalar_lt ks -> NoDupA scalar_eq ks.
Proof.
  induction 1 as [| k ks Hs IH Hfa]; constructor; auto.
  intros Hin. apply InA_alt in Hin as (k' & Heq & Hin').
  rewrite Forall_forall in Hfa.
  exact (scalar_lt_not_eq _ _ (Hfa _ Hin') Heq).
Qed.

Lemma InA_insert_desc (k : Scalar) (x : AggRow) (l : list AggRow) :
  InA scalar_eq k (map agg_region (insert_desc x l)) ->
  InA scalar_eq k (map agg_region (x :: l)).
Proof.
  induction l as [| y l IH]; simpl; auto.
  destruct (Qle_bool (agg_value y) (agg_value x)); simpl; auto.
  intros H. inversion H; subst.
  - apply InA_cons_tl. apply InA_cons_hd. assumption.
  - specialize (IH ltac:(assumption)). simpl in IH.
    inversion IH; subst.
    + apply InA_cons_hd. assumption.
    + apply InA_cons_tl. apply InA_cons_tl. assumption.
Qed.

Lemma insert_desc_distinct (x : AggRow) (l : list AggRow) :
  distinct_regions (x :: l) -> distinct_regions (insert_desc x l).
Proof.
  unfold distinct_regions.
  induction l as [| y l IH]; simpl; auto.
  destruct (Qle_bool (agg_value y) (agg_value x)); simpl; auto.
  intros H. inversion H as [| ? ? Hx Hyl]; subst.
  inversion Hyl as [| ? ? Hy Hl]; subst.
  constructor.
  - intros Hin. apply InA_insert_desc in Hin. simpl in Hin.
    inversion Hin; subst.
    + apply Hx. apply InA_cons_hd. apply scalar_eq_sym. assumption.
    + apply Hy. assumption.
  - apply IH. simpl. constructor; auto.
Qed.

Lemma sort_values_desc_distinct (l : list AggRow) :
  distinct_regions l -> distinct_regions (sort_values_desc l).
Proof.
  unfold distinct_regions.
  induction l as [| x l IH]; simpl; auto.
  intros H. inversion H as [| ? ? Hx Hl]; subst.
  apply insert_desc_distinct. unfold distinct_regions. simpl.
  constructor; auto.
  intros Hin. apply Hx. clear -Hin.
  induction l as [| y l IH]; simpl in *; auto.
  apply InA_insert_desc in Hin. simpl in Hin.
  inversion Hin; subst; [apply InA_cons_hd | apply InA_cons_tl]; auto.
Qed.

(** ** [region_aggregate] *)

Section Region_aggregate.
Context `{Runtime}.

(** The result is the stable descending sort of the coerced groups, and
    the groups come in ascending order of their keys. *)
Lemma region_aggregate_inv (df : DataFrame) (region_col value_col agg : string)
    (out : list AggRow) :
  region_aggregate df region_col value_col agg = Ok out ->
  exists g : list (Scalar * Scalar),
    StronglySorted scalar_lt (map fst g)
    /\ out = sort_values_desc (coerce_dropna g).
Proof.
  unfold region_aggregate. intros H0.
  destruct (_require_columns df [region_col; value_col]) as [[] | ?];
    simpl in H0; [| discriminate].
  destruct (getitem df region_col) as [keys | |];
    simpl in H0; try discriminate.
  destruct (getitem df value_col) as [vals | |];
    simpl in H0; try discriminate.
  destruct (String.eqb region_col value_col); simpl in H0; [discriminate |].
  destruct (parse_agg agg) as [a | ?]; simpl in H0; [| discriminate].
  destruct (mapM _ _) as [g | ?] eqn:Hg; simpl in H0; [| discriminate].
  exists g. split; [| congruence].
  rewrite (mapM_reduce_keys _ _ _ Hg).
  apply groupby_sorted.
  - exact scalar_gt_lt.
  - exact scalar_lt_trans.
Qed.

Lemma region_aggregate_sorted (df : DataFrame)
    (region_col value_col agg : string) (out : list AggRow) :
  region_aggregate df region_col value_col agg = Ok out ->
  StronglySorted value_desc_then_region out.
Proof.
  intros Hr. apply region_aggregate_inv in Hr as (g & Hg & ->).
  apply sort_values_desc_sorted. apply coerce_dropna_sorted. exact Hg.
Qed.

Lemma region_aggregate_distinct (df : DataFrame)
    (region_col value_col agg : string) (out : list AggRow) :
  region_aggregate df region_col value_col agg = Ok out ->
  distinct_regions out.
Proof.
  intros Hr. apply region_aggregate_inv in Hr as (g & Hg & ->).
  apply sort_values_desc_distinct. apply sorted_keys_distinct.
  apply coerce_dropna_sorted. exact Hg.
Qed.

Lemma region_aggregate_desc (df : DataFrame)
    (region_col value_col agg : string) (out : list AggRow) :
  region_aggregate df region_col value_col agg = Ok out ->
  StronglySorted (fun a b => (agg_value b <= agg_value a)%Q) out.
Proof.
  intros Hr. apply region_aggregate_sorted in Hr.
  eapply StronglySorted_weaken; [| exact Hr].
  exact value_desc_then_region_le.
Qed.
End Region_aggregate.



(** ** [rankings] *)

Lemma StronglySorted_last {A : Type} (R : A -> A -> Prop) (l : list A)
    (x : A) :
  StronglySorted R (l ++ [x])%list -> Forall (fun a => R a x) l.
Proof.
  induction l as [| a l IH]; simpl; intros Hs; [constructor |].
  inversion Hs as [| ? ? Hs' Hfa]; subst.
  apply Forall_app in Hfa as [_ Hx]. inversion Hx; subst.
  constructor; auto.
Qed.

Section Rankings.
Context `{Runtime}.

Lemma rankings_eq (df : DataFrame) (region_col value_col agg : string)
    (top_n : Z) (agg_df : list AggRow) :
  region_aggregate df region_col value_col agg = Ok agg_df ->
  rankings df region_col value_col agg top_n
  = Ok (firstn (Z.to_nat (Z.max 0 top_n)) (map region_value_of agg_df),
        if (0 <? top_n)%Z
        then rev (skipn (length (map region_value_of agg_df)
                         - Z.to_nat (Z.max 0 top_n))
                    (map region_value_of agg_df))
        else []).
Proof. intros Hr. unfold rankings. rewrite Hr. reflexivity. Qed.

Lemma values_desc (df : DataFrame) (region_col value_col agg : string)
    (agg_df : list AggRow) :
  region_aggregate df region_col value_col agg = Ok agg_df ->
  StronglySorted (fun a b => (value b <= value a)%Q)
    (map region_value_of agg_df).
Proof.
  intros Hr. apply StronglySorted_map.
  exact (region_aggregate_desc _ _ _ _ _ Hr).
Qed.

(* the first row of the reversed tail is the last row of the list *)
Lemma hd_rev_skipn_min {A : Type} (R : A -> A -> Prop) (k : nat)
    (l : list A) (x : A) :
  (forall a, R a a) ->
  StronglySorted R l -> hd_error (rev (skipn k l)) = Some x ->
  Forall (fun a => R a x) l.
Proof.
  intros Hrefl Hs Hhd.
  destruct (rev (skipn k l)) as [| y t] eqn:Hrev; [discriminate |].
  injection Hhd as ->.
  assert (Hsk : skipn k l = (rev t ++ [x])%list).
  { rewrite <- (rev_involutive (skipn k l)), Hrev. reflexivity. }
  rewrite <- (firstn_skipn k l), Hsk, app_assoc in Hs.
  apply StronglySorted_last in Hs.
  rewrite <- (firstn_skipn k l), Hsk, app_assoc.
  apply Forall_app. split; [exact Hs | repeat constructor; apply Hrefl].
Qed.

Lemma rev_skipn_nonempty {A : Type} (n : nat) (l : list A) :
  (0 < n)%nat -> l <> [] ->
  exists x t, rev (skipn (length l - n) l) = x :: t.
Proof.
  intros Hn Hl.
  destruct (rev (skipn (length l - n) l)) as [| x t] eqn:Hrev; eauto.
  exfalso. apply (f_equal (@length A)) in Hrev.
  rewrite length_rev, length_skipn in Hrev. simpl in Hrev.
  destruct l; [congruence | simpl in Hrev; lia].
Qed.
End Rankings.


(** ** Number formatting respects equality of rationals *)

Lemma round_half_even_comp (p q : Q) :
  (p == q)%Q -> round_half_even p = round_half_even q.
Proof.
  intros Hpq. unfold round_half_even.
  rewrite (Qfloor_comp _ _ Hpq).
  assert (Hc : ((p - inject_Z (Qfloor q) ?= 1 # 2)
                = (q - inject_Z (Qfloor q) ?= 1 # 2))%Q)
    by (rewrite Hpq; reflexivity).
  rewrite Hc. reflexivity.
Qed.

Lemma format_fixed_comp (comma : bool) (d : nat) (p q : Q) :
  (p == q)%Q -> format_fixed comma d p = format_fixed comma d q.
Proof.
  intros Hpq. unfold format_fixed.
  assert (Hr : round_half_even (Qabs p * inject_Z (10 ^ Z.of_nat d))
               = round_half_even (Qabs q * inject_Z (10 ^ Z.of_nat d)))
    by (apply round_half_even_comp; rewrite Hpq; reflexivity).
  assert (Hs : ((p ?= 0) = (q ?= 0))%Q) by (rewrite Hpq; reflexivity).
  rewrite Hr, Hs. reflexivity.
Qed.

Lemma Qsum_zero (qs : list Q) :
  Forall (fun q => (q == 0)%Q) qs -> (Qsum qs == 0)%Q.
Proof.
  unfold Qsum.
  assert (Hgen : forall acc, Forall (fun q => (q == 0)%Q) qs ->
            (fold_left Qplus qs acc == acc)%Q).
  { induction qs as [| q qs IH]; simpl; intros acc Hq; [reflexivity |].
    inversion Hq as [| ? ? Hq0 Hqs]; subst.
    rewrite (IH _ Hqs), Hq0. apply Qplus_0_r. }
  apply Hgen.
Qed.

(** ** [executive_summary] *)

Section Executive_summary.
Context `{Runtime}.

(** With a region to report and [top_n >= 1] the summary is built from
    the first row of [top] and the first row of [bottom]. *)
Lemma executive_summary_ok (df : DataFrame)
    (metric region_col value_col agg : string) (top_n : Z)
    (agg_df : list AggRow) :
  region_aggregate df region_col value_col agg = Ok agg_df ->
  agg_df <> [] -> (1 <= top_n)%Z ->
  exists (top bottom : list RegionValue) (best worst : RegionValue),
    rankings df region_col value_col agg top_n = Ok (top, bottom)
    /\ hd_error top = Some best
    /\ hd_error bottom = Some worst
    /\ executive_summary df metric region_col value_col agg top_n
       = Ok {| summary := summary_sentence best worst metric agg;
               key_findings :=
                 [ finding "Top" (Qsum (map agg_value agg_df)) metric best;
                   finding "Bottom" (Qsum (map agg_value agg_df)) metric
                     worst;
                   "Total across regions: "
                     ++ format_fixed true 2 (Qsum (map agg_value agg_df))
                     ++ " " ++ metric ++ "." ];
               regional_comparison :=
                 comparison_of metric agg top bottom |}.
Proof.
  intros Hr Hne Hn.
  unfold executive_summary. rewrite Hr.
  rewrite (rankings_eq _ _ _ _ top_n _ Hr).
  destruct agg_df as [| a l]; [congruence |]. clear Hne.
  replace (Z.max 0 top_n) with top_n by lia.
  assert (Hlt : (0 <? top_n)%Z = true) by (apply Z.ltb_lt; lia).
  rewrite Hlt.
  destruct (rev_skipn_nonempty (Z.to_nat top_n)
              (map region_value_of (a :: l))) as (w & t & Hw);
    [lia | discriminate |].
  rewrite Hw.
  destruct (Z.to_nat top_n) as [| n] eqn:Hnat; [lia |].
  simpl firstn.
  exists (region_value_of a :: firstn n (map region_value_of l)),
         (w :: t), (region_value_of a), w.
  repeat split.
Qed.

Lemma executive_summary_empty_top (df : DataFrame)
    (metric region_col value_col agg : string) (top_n : Z)
    (agg_df : list AggRow) :
  region_aggregate df region_col value_col agg = Ok agg_df ->
  agg_df <> [] -> (top_n <= 0)%Z ->
  executive_summary df metric region_col value_col agg top_n
  = Err IndexError.
Proof.
  intros Hr Hne Hn.
  unfold executive_summary. rewrite Hr.
  rewrite (rankings_eq _ _ _ _ top_n _ Hr).
  destruct agg_df as [| a l]; [congruence |].
  replace (Z.max 0 top_n) with 0%Z by lia.
  reflexivity.
Qed.
End Executive_summary.

Lemma In_firstn {A : Type} (n : nat) (l : list A) (x : A) :
  In x (firstn n l) -> In x l.
Proof.
  intros Hin. rewrite <- (firstn_skipn n l). apply in_or_app. auto.
Qed.

Lemma In_skipn {A : Type} (n : nat) (l : list A) (x : A) :
  In x (skipn n l) -> In x l.
Proof.
  intros Hin. rewrite <- (firstn_skipn n l). apply in_or_app. auto.
Qed.

(** ** No index error below [executive_summary] *)

Lemma reduce_err (a : Agg) (vs : list Scalar) (e : Exn) :
  reduce a vs = Err e -> e = TypeError.
Proof.
  unfold reduce. intros Hr.
  destruct a;
    destruct (nums_of (filter notna vs)) as [[| q qs] |];
    destruct (strs_of (filter notna vs)) as [[| s ss] |];
    simpl in Hr; congruence.
Qed.

Lemma mapM_reduce_err {K : Type} (a : Agg) (gs : list (K * list Scalar))
    (e : Exn) :
  mapM (fun g => let* v := reduce a (snd g) in Ok (fst g, v)) gs = Err e ->
  e = TypeError.
Proof.
  induction gs as [| g gs IH]; simpl; intros Hm; [discriminate |].
  destruct (reduce a (snd g)) as [v | e'] eqn:Hred; simpl in Hm.
  - destruct (mapM _ gs) as [bs | e'']; simpl in Hm; [discriminate |].
    apply IH. congruence.
  - apply reduce_err in Hred. congruence.
Qed.

Lemma parse_agg_err (agg : string) (e : Exn) :
  parse_agg agg = Err e -> e = AttributeError.
Proof.
  unfold parse_agg. intros Hp.
  repeat match type of Hp with
         | (if ?b then _ else _) = _ => destruct b
         end; congruence.
Qed.

Lemma require_columns_err (df : DataFrame) (cols : list string) (e : Exn) :
  _require_columns df cols = Err e -> exists missing, e = ValueError_missing missing.
Proof.
  unfold _require_columns. intros Hq.
  destruct (filter _ cols); [discriminate |].
  injection Hq as <-. eauto.
Qed.

Lemma region_aggregate_no_index_error `{Runtime} (df : DataFrame)
    (region_col value_col agg : string) :
  region_aggregate df region_col value_col agg <> Err IndexError.
Proof.
  unfold region_aggregate. intros H0.
  destruct (_require_columns df [region_col; value_col]) as [[] | e] eqn:Hq;
    simpl in H0.
  2:{ apply require_columns_err in Hq as [m ->]. discriminate. }
  destruct (getitem df region_col) as [keys | |];
    simpl in H0; try discriminate.
  destruct (getitem df value_col) as [vals | |];
    simpl in H0; try discriminate.
  destruct (String.eqb region_col value_col); simpl in H0; [discriminate |].
  destruct (parse_agg agg) as [a | e] eqn:Ha; simpl in H0.
  2:{ apply parse_agg_err in Ha. congruence. }
  destruct (mapM _ _) as [g | e] eqn:Hg; simpl in H0; [discriminate |].
  apply mapM_reduce_err in Hg. congruence.
Qed.

Lemma executive_summary_no_index_error `{Runtime} (df : DataFrame)
    (metric region_col value_col agg : string) (top_n : Z) :
  (1 <= top_n)%Z ->
  executive_summary df metric region_col value_col agg top_n
  <> Err IndexError.
Proof.
  intros Hn.
  destruct (region_aggregate df region_col value_col agg) as [agg_df | e]
    eqn:Hr.
  - destruct agg_df as [| a l].
    + unfold executive_summary. rewrite Hr. discriminate.
    + destruct (executive_summary_ok df metric _ _ _ top_n _ Hr)
        as (top & bottom & best & worst & _ & _ & _ & ->);
        [discriminate | exact Hn | discriminate].
  - unfold executive_summary. rewrite Hr. simpl.
    intros Hc. apply (region_aggregate_no_index_error df region_col value_col agg).
    congruence.
Qed.




(** ** The columns of [from_records] *)

Lemma existsb_eqb_In (k : string) (l : list string) :
  existsb (String.eqb k) l = true <-> In k l.
Proof.
  rewrite existsb_exists. split.
  - intros (x & Hin & Heq). apply String.eqb_eq in Heq. subst. exact Hin.
  - intros Hin. exists k. split; [exact Hin | apply String.eqb_refl].
Qed.

Lemma seen_fold_In (l acc : list string) (k : string) :
  In k (fold_left seen_step l acc) <-> In k acc \/ In k l.
Proof.
  revert acc. induction l as [| x l IH]; simpl; intros acc; [tauto |].
  rewrite IH. unfold seen_step.
  destruct (existsb (String.eqb x) acc) eqn:Hx.
  - apply existsb_eqb_In in Hx. split; [tauto |].
    intros [? | [<- | ?]]; auto.
  - rewrite in_app_iff. simpl. tauto.
Qed.

Lemma seen_fold_NoDup (l acc : list string) :
  NoDup acc -> NoDup (fold_left seen_step l acc).
Proof.
  revert acc. induction l as [| x l IH]; simpl; intros acc Hnd; auto.
  apply IH. unfold seen_step.
  destruct (existsb (String.eqb x) acc) eqn:Hx; auto.
  apply NoDup_app; [exact Hnd | repeat constructor; simpl; tauto |].
  intros k Hk [<- | []].
  apply existsb_eqb_In in Hk. congruence.
Qed.

Lemma first_seen_In (l : list string) (k : string) :
  In k (first_seen l) <-> In k l.
Proof.
  unfold first_seen. rewrite seen_fold_In. simpl. tauto.
Qed.

Lemma first_seen_NoDup (l : list string) : NoDup (first_seen l).
Proof.
  unfold first_seen. apply seen_fold_NoDup. constructor.
Qed.

Lemma union_keys_In (records : list Record_) (k : string) :
  In k (union_keys records) <-> exists r, In r records /\ In k (map fst r).
Proof.
  unfold union_keys. rewrite first_seen_In, in_concat. split.
  - intros (ks & Hks & Hk). apply in_map_iff in Hks as (r & <- & Hr). eauto.
  - intros (r & Hr & Hk). exists (map fst r). split; auto.
    apply in_map. exact Hr.
Qed.

(** ** The store *)

Lemma get_put_dataframe (st : DatasetStore) (uid : string) (df : DataFrame)
    (nm : option string) :
  exists (meta : DatasetMeta) (st' : DatasetStore),
    put_dataframe st uid df nm = Ok (meta, st')
    /\ dataset_id meta = uid
    /\ name meta = name_or nm uid
    /\ meta_rows meta = len df
    /\ meta_columns meta = columns df
    /\ get st' (dataset_id meta) = Ok df.
Proof.
  unfold put_dataframe. eexists. eexists. split; [reflexivity |].
  simpl. repeat split.
  - rewrite lookup_insert_eq. reflexivity.
  - unfold get. simpl. rewrite lookup_insert_eq. reflexivity.
Qed.

(** C3 (as amended).  [put_records] never fails: for every record sequence,
    the empty one included, it returns the metadata of the frame built from
    the records.  The empty sequence is rejected one level up, by the route
    [ingest_json], with HTTP 400; on every other sequence the route is
    [put_records]. *)
Theorem put_records_total (st : DatasetStore) (uid : string)
    (records : list Record_) (nm : option string) :
  (exists (meta : DatasetMeta) (st' : DatasetStore),
     put_records st uid records nm = Ok (meta, st')
     /\ dataset_id meta = uid
     /\ meta_rows meta = len (from_records records)
     /\ meta_columns meta = union_keys records)
  /\ (ingest_json st uid records nm = Err (HTTPException 400)
      <-> records = [])
  /\ (records = []
      \/ ingest_json st uid records nm = put_records st uid records nm).
Proof.
  split; [| split].
  - unfold put_records.
    destruct (get_put_dataframe st uid (from_records records) nm)
      as (meta & st' & Hput & Hid & _ & Hrows & Hcols & _).
    exists meta, st'. repeat split; assumption.
  - destruct records as [| r records]; simpl.
    + split; reflexivity.
    + split; [| discriminate].
      unfold put_records, put_dataframe. discriminate.
  - destruct records as [| r records]; [left | right]; reflexivity.
Qed.


(** First-seen order: the first key stays first and is removed from the
    rest. *)
Lemma filter_filter_and {A : Type} (f g : A -> bool) (l : list A) :
  filter f (filter g l) = filter (fun x => g x && f x) l.
Proof.
  induction l as [| x l IH]; simpl; [reflexivity |].
  destruct (g x); simpl; [destruct (f x) |]; rewrite ?IH; reflexivity.
Qed.

Lemma seen_fold_app (l acc : list string) :
  fold_left seen_step l acc
  = (acc ++ filter (fun x => negb (existsb (String.eqb x) acc))
              (fold_left seen_step l []))%list.
Proof.
  revert acc. induction l as [| k l IH]; intros acc.
  - simpl. rewrite app_nil_r. reflexivity.
  - change (fold_left seen_step (k :: l) acc)
      with (fold_left seen_step l (seen_step acc k)).
    change (fold_left seen_step (k :: l) [])
      with (fold_left seen_step l [k]).
    rewrite (IH (seen_step acc k)), (IH [k]).
    set (F := fold_left seen_step l []).
    simpl filter at 2.
    rewrite filter_filter_and.
    unfold seen_step.
    destruct (existsb (String.eqb k) acc) eqn:Hk; simpl.
    + f_equal. apply filter_ext_in. intros x _.
      rewrite orb_false_r.
      destruct (String.eqb x k) eqn:Hxk; simpl; [| reflexivity].
      apply String.eqb_eq in Hxk. subst. rewrite Hk. reflexivity.
    + rewrite <- app_assoc. simpl. f_equal. f_equal.
      apply filter_ext_in. intros x _.
      rewrite existsb_app. simpl. rewrite !orb_false_r, negb_orb.
      apply andb_comm.
Qed.

Lemma first_seen_cons (k : string) (l : list string) :
  first_seen (k :: l)
  = k :: filter (fun x => negb (String.eqb x k)) (first_seen l).
Proof.
  unfold first_seen. simpl.
  rewrite seen_fold_app. unfold seen_step at 1. simpl.
  f_equal. apply filter_ext_in. intros x _.
  unfold seen_step. simpl. rewrite orb_false_r. reflexivity.
Qed.

(** ** Rows in ascending order *)

Lemma string_compare_eq (s t : string) :
  String_as_OT.compare s t = Eq -> s = t.
Proof.
  intros Hc. destruct (String_as_OT.compare_spec s t) as [He | Hl | Hg];
    try discriminate. exact He.
Qed.

Lemma scalar_compare_eq_l (a b x : Scalar) :
  scalar_compare a b = Eq -> scalar_compare a x = scalar_compare b x.
Proof.
  destruct a, b; simpl; intros Hab; try discriminate; try reflexivity.
  - apply Qeq_alt in Hab. destruct x; simpl; try reflexivity.
    rewrite Hab. reflexivity.
  - apply string_compare_eq in Hab. subst. reflexivity.
Qed.

Lemma scalar_compare_eq_r (a b x : Scalar) :
  scalar_compare b x = Eq -> scalar_compare a x = scalar_compare a b.
Proof.
  intros Hbx.
  rewrite (scalar_compare_antisym x a), (scalar_compare_antisym b a).
  f_equal. symmetry. apply scalar_compare_eq_l. exact Hbx.
Qed.

Lemma row_compare_antisym (idx : list nat) (r1 r2 : list Scalar) :
  row_compare idx r2 r1 = CompOpp (row_compare idx r1 r2).
Proof.
  induction idx as [| i idx IH]; simpl; [reflexivity |].
  rewrite (scalar_compare_antisym (cell r1 i) (cell r2 i)).
  destruct (scalar_compare (cell r1 i) (cell r2 i)); simpl; auto.
Qed.

Lemma row_le_trans (idx : list nat) (r1 r2 r3 : list Scalar) :
  row_le idx r1 r2 -> row_le idx r2 r3 -> row_le idx r1 r3.
Proof.
  unfold row_le. induction idx as [| i idx IH]; simpl; [congruence |].
  destruct (scalar_compare (cell r1 i) (cell r2 i)) eqn:H12;
    destruct (scalar_compare (cell r2 i) (cell r3 i)) eqn:H23;
    intros Ha Hb; try congruence.
  - rewrite (scalar_compare_eq_l _ _ _ H12), H23. auto.
  - rewrite (scalar_compare_eq_l _ _ _ H12), H23. discriminate.
  - rewrite (scalar_compare_eq_r _ _ _ H23), H12. discriminate.
  - rewrite (scalar_lt_trans _ _ _ H12 H23). discriminate.
Qed.

Lemma insert_row_Forall (P : list Scalar -> Prop) (idx : list nat)
    (x : list Scalar) (l : list (list Scalar)) :
  P x -> Forall P l -> Forall P (insert_row idx x l).
Proof.
  intros Hx. induction 1 as [| y l Hy Hl IH]; simpl.
  - repeat constructor. exact Hx.
  - destruct (row_compare idx x y); repeat constructor; auto.
Qed.

Lemma insert_row_sorted (idx : list nat) (x : list Scalar)
    (l : list (list Scalar)) :
  StronglySorted (row_le idx) l ->
  StronglySorted (row_le idx) (insert_row idx x l).
Proof.
  induction 1 as [| y l Hs IH Hfa]; simpl.
  - repeat constructor.
  - assert (Hle : row_compare idx x y <> Gt ->
                  StronglySorted (row_le idx) (x :: y :: l)).
    { intros Hxy. constructor; [constructor; assumption |].
      constructor; [exact Hxy |].
      eapply Forall_impl; [| exact Hfa].
      intros z Hyz. exact (row_le_trans idx _ _ _ Hxy Hyz). }
    destruct (row_compare idx x y) eqn:Hc; try (apply Hle; congruence).
    constructor; [exact IH |].
    apply insert_row_Forall; [| exact Hfa].
    unfold row_le. rewrite row_compare_antisym, Hc. discriminate.
Qed.

Lemma sort_values_sorted (df out : DataFrame) (by_ : list string) :
  sort_values df by_ = Ok out ->
  columns out = columns df
  /\ exists idx : list nat,
       mapM (fun c => match positions c (columns df) with
                      | [i] => Ok i
                      | [] => Err (KeyError c)
                      | _ :: _ :: _ => Err ValueError_pandas
                      end) by_ = Ok idx
       /\ StronglySorted (row_le idx) (rows out)
       /\ Permutation (rows df) (rows out).
Proof.
  unfold sort_values. intros Hs.
  destruct (mapM _ by_) as [idx | e]; simpl in Hs; [| discriminate].
  injection Hs as <-. simpl. split; [reflexivity |].
  exists idx. split; [reflexivity |].
  split.
  - induction (rows df) as [| x l IH]; simpl; [constructor |].
    apply insert_row_sorted. exact IH.
  - induction (rows df) as [| x l IH]; simpl; [constructor |].
    assert (Hp : forall l', Permutation (x :: l') (insert_row idx x l')).
    { induction l' as [| y l' IH']; simpl; [reflexivity |].
      destruct (row_compare idx x y); try reflexivity.
      rewrite perm_swap. constructor. exact IH'. }
    rewrite <- Hp. constructor. exact IH.
Qed.

(** ** Labels and positions *)

Lemma positions_from (c : string) (cols : list string) (s : nat) :
  let ps := map fst (filter (fun ic => String.eqb (snd ic) c)
                       (combine (seq s (length cols)) cols)) in
  length ps = occurrences c cols
  /\ Forall (fun i => (s <= i)%nat /\ nth (i - s) cols EmptyString = c) ps.
Proof.
  revert s. induction cols as [| x cols IH]; intros s; simpl.
  - split; [reflexivity | constructor].
  - destruct (IH (S s)) as [Hlen Hfa]. unfold occurrences in *. simpl.
    assert (Hfa' : Forall (fun i => (s <= i)%nat
                     /\ nth (i - s) (x :: cols) EmptyString = c)
                     (map fst (filter (fun ic => String.eqb (snd ic) c)
                        (combine (seq (S s) (length cols)) cols)))).
    { eapply Forall_impl; [| exact Hfa]. simpl. intros i [Hi Hn].
      split; [lia |].
      destruct (i - s)%nat as [| k] eqn:Hk; [lia |].
      replace k with (i - S s)%nat by lia. exact Hn. }
    destruct (String.eqb x c) eqn:Hxc; simpl.
    + apply String.eqb_eq in Hxc. subst x.
      destruct (String.string_dec c c); [| congruence].
      split; [f_equal; exact Hlen |].
      constructor; [| exact Hfa'].
      split; [lia |]. rewrite Nat.sub_diag. reflexivity.
    + apply String.eqb_neq in Hxc.
      destruct (String.string_dec x c); [congruence |].
      split; assumption.
Qed.

Lemma positions_length (c : string) (cols : list string) :
  length (positions c cols) = occurrences c cols.
Proof. apply (positions_from c cols 0). Qed.

Lemma positions_nth (c : string) (cols : list string) :
  Forall (fun i => nth i cols EmptyString = c) (positions c cols).
Proof.
  eapply Forall_impl; [| apply (positions_from c cols 0)].
  simpl. intros i [_ Hn]. rewrite Nat.sub_0_r in Hn. exact Hn.
Qed.

Lemma occurrences_labels_of_positions (c c' : string) (cols : list string) :
  occurrences c (map (fun i => nth i cols EmptyString) (positions c' cols))
  = if String.eqb c' c then occurrences c' cols else 0%nat.
Proof.
  rewrite <- (positions_length c' cols).
  pose proof (positions_nth c' cols) as Hn.
  induction Hn as [| i ps Hi Hps IH]; simpl.
  - destruct (String.eqb c' c); reflexivity.
  - unfold occurrences in *. simpl. rewrite Hi, IH.
    destruct (String.string_dec c' c) as [-> | Hne].
    + rewrite String.eqb_refl. reflexivity.
    + apply String.eqb_neq in Hne. rewrite Hne. reflexivity.
Qed.

Lemma occurrences_select3 (df : DataFrame) (d r v c : string) :
  occurrences c (columns (select df [d; r; v]))
  = ((if String.eqb d c then occurrences d (columns df) else 0)
     + (if String.eqb r c then occurrences r (columns df) else 0)
     + (if String.eqb v c then occurrences v (columns df) else 0))%nat.
Proof.
  unfold select. simpl. rewrite app_nil_r, !map_app.
  unfold occurrences. rewrite !count_occ_app.
  fold (occurrences c (map (fun i => nth i (columns df) EmptyString)
                         (positions d (columns df)))).
  fold (occurrences c (map (fun i => nth i (columns df) EmptyString)
                         (positions r (columns df)))).
  fold (occurrences c (map (fun i => nth i (columns df) EmptyString)
                         (positions v (columns df)))).
  rewrite !occurrences_labels_of_positions. unfold occurrences. lia.
Qed.

Lemma getitem_series_once (df : DataFrame) (c : string) (cs : list Scalar) :
  getitem df c = Series cs -> occurrences c (columns df) = 1%nat.
Proof.
  unfold getitem. rewrite <- positions_length.
  destruct (positions c (columns df)) as [| i [| j p]]; try discriminate.
  reflexivity.
Qed.

Lemma require_columns_present (df : DataFrame) (cols : list string) :
  _require_columns df cols = Ok tt ->
  Forall (fun c => (1 <= occurrences c (columns df))%nat) cols.
Proof.
  unfold _require_columns. intros Hq.
  destruct (filter _ cols) as [| m ms] eqn:Hf; [| discriminate].
  apply Forall_forall. intros c Hc.
  destruct (has_column df c) eqn:Hh.
  - unfold has_column in Hh. apply existsb_exists in Hh as (x & Hx & Hcx).
    apply String.eqb_eq in Hcx. subst x.
    apply (count_occ_In String.string_dec) in Hx. unfold occurrences. lia.
  - assert (Hin : In c (filter (fun c => negb (has_column df c)) cols)).
    { apply filter_In. split; [exact Hc |]. rewrite Hh. reflexivity. }
    rewrite Hf in Hin. destruct Hin.
Qed.

(** The three selected columns are series only when the three names are
    distinct. *)
Lemma selected_series_distinct (df : DataFrame) (d r v : string)
    (ds vs : list Scalar) :
  _require_columns df [d; r; v] = Ok tt ->
  getitem (select df [d; r; v]) d = Series ds ->
  getitem (select df [d; r; v]) v = Series vs ->
  d <> r /\ d <> v /\ r <> v.
Proof.
  intros Hq Hd Hv.
  apply require_columns_present in Hq.
  inversion Hq as [| ? ? Hnd Hq1]; subst.
  inversion Hq1 as [| ? ? Hnr Hq2]; subst.
  inversion Hq2 as [| ? ? Hnv _]; subst.
  apply getitem_series_once in Hd, Hv.
  rewrite occurrences_select3 in Hd, Hv.
  rewrite String.eqb_refl in Hd, Hv.
  repeat split; intros Heq; subst.
  - rewrite String.eqb_refl in Hd. lia.
  - rewrite String.eqb_refl in Hd. lia.
  - rewrite String.eqb_refl in Hv.
    destruct (String.eqb d v); lia.
Qed.

Lemma relabel_two (r r' v v' x : string) :
  relabel [(r, r'); (v, v')] x
  = if String.eqb v x then v' else if String.eqb r x then r' else x.
Proof.
  unfold relabel, dict_literal_get.
  change (rev [(r, r'); (v, v')]) with [(v, v'); (r, r')].
  cbn [find fst snd].
  destruct (String.eqb v x); [reflexivity |].
  destruct (String.eqb r x); reflexivity.
Qed.

Lemma relabel_one (d d' x : string) :
  relabel [(d, d')] x = if String.eqb d x then d' else x.
Proof.
  unfold relabel, dict_literal_get.
  change (rev [(d, d')]) with [(d, d')].
  cbn [find fst snd].
  destruct (String.eqb d x); reflexivity.
Qed.

Lemma labels_distinct (d r v : string) :
  d <> r -> d <> v -> r <> v ->
  rename [(d, bucket_col)]
    (rename [(r, "region"); (v, "value")] [d; r; v])
  = [ bucket_col;
      if String.eqb d "region" then bucket_col else "region";
      if String.eqb d "value" then bucket_col else "value" ].
Proof.
  intros Hdr Hdv Hrv.
  unfold rename. cbn [map].
  rewrite !relabel_two, !String.eqb_refl.
  apply String.eqb_neq in Hdr, Hdv, Hrv.
  rewrite (String.eqb_sym v d), (String.eqb_sym r d), Hdr, Hdv.
  rewrite (String.eqb_sym v r), Hrv.
  rewrite !relabel_one, String.eqb_refl. reflexivity.
Qed.

(** ** [trends] *)

(** Whenever [trends] returns, the date column is named neither [region]
    nor [value], the frame has the columns [region], [value] and [date],
    every date is the printed date of a bucket, and the rows are in
    ascending order of (date, region). *)
Lemma trends_fields `{Runtime} (df : DataFrame)
    (date_col region_col value_col agg freq : string) (out : DataFrame) :
  trends df date_col region_col value_col agg freq = Ok out ->
  date_col <> "region" /\ date_col <> "value"
  /\ columns out = ["region"; "value"; "date"]
  /\ StronglySorted (row_le [2; 0]%nat) (rows out)
  /\ Forall (fun row => exists b : Z, cell row 2 = Str (date_str b))
       (rows out).
Proof.
  unfold trends. intros Ht.
  destruct (_require_columns df [date_col; region_col; value_col])
    as [[] | ?] eqn:Hq; cbn [bind] in Ht; [| discriminate].
  destruct (getitem _ date_col) as [ds | |] eqn:Hd; cbn [bind] in Ht;
    try discriminate.
  destruct (getitem _ value_col) as [vs | |] eqn:Hv; cbn [bind] in Ht;
    try discriminate.
  destruct (getitem _ region_col) as [rs | |]; cbn [bind] in Ht;
    try discriminate.
  destruct (freq_bucket _) as [b |]; cbn [bind] in Ht; [| discriminate].
  destruct (parse_agg agg) as [a | ?]; cbn [bind] in Ht; [| discriminate].
  destruct (mapM _ _) as [g | ?]; cbn [bind] in Ht; [| discriminate].
  destruct (selected_series_distinct _ _ _ _ _ _ Hq Hd Hv)
    as (Hdr & Hdv & Hrv).
  rewrite (labels_distinct _ _ _ Hdr Hdv Hrv) in Ht.
  destruct (String.eqb date_col "region") eqn:Hreg;
    destruct (String.eqb date_col "value") eqn:Hval;
    try (vm_compute in Ht; discriminate Ht).
  apply String.eqb_neq in Hreg, Hval.
  change (positions bucket_col [bucket_col; "region"; "value"])
    with [0%nat] in Ht.
  cbn [nth] in Ht.
  apply sort_values_sorted in Ht as (Hcols & idx & Hidx & Hs & Hperm).
  cbn [columns rows] in *.
  assert (Hi : idx = [2; 0]%nat) by (vm_compute in Hidx; congruence).
  subst idx.
  repeat split; try assumption.
  eapply Permutation_Forall; [exact Hperm |].
  apply Forall_map. apply Forall_forall. intros x _.
  exists (fst (fst x)). reflexivity.
Qed.

(** ** The claims on concrete datasets *)

(** C1.  [region_aggregate] reduces the raw column and coerces only the
    reduced value: with [agg = "count"] the cell ["abc"], which cannot be
    coerced, is counted.  The reading of section 4.2, which coerces first
    as [trends] does, counts one cell. *)
Theorem region_aggregate_counts_uncoercible_cell :
  region_aggregate (from_records uncoercible_payload) "region" "revenue"
    "count"
  = Ok [ {| agg_region := Str "A"; agg_value := 2 |} ]
  /\ region_aggregate_coerce_first (from_records uncoercible_payload)
       "region" "revenue" "count"
     = Ok [ {| agg_region := Str "A"; agg_value := 1 |} ]
  /\ to_numeric (Str "abc") = None.
Proof. repeat split; vm_compute; reflexivity. Qed.



(** C3, as stated, fails: [put_records] accepts the empty sequence and
    stores a frame without rows or columns. *)
Lemma put_records_accepts_empty :
  exists (meta : DatasetMeta) (st' : DatasetStore),
    put_records empty_store "0123456789ab" [] None = Ok (meta, st')
    /\ meta_rows meta = 0%nat
    /\ meta_columns meta = []
    /\ get st' "0123456789ab" = Ok {| columns := []; rows := [] |}.
Proof.
  destruct (get_put_dataframe empty_store "0123456789ab" (from_records [])
              None) as (meta & st' & Hput & Hid & _ & Hrows & Hcols & Hget).
  exists meta, st'. rewrite Hid in Hget. repeat split; assumption.
Qed.







(** C8.  A date column named ["value"] (or ["region"]): the rename of the
    value column gives two columns that label, both become [__bucket__],
    and reading the bucket back fails.  So on no dataset, with no runtime,
    does [trends] return when the date column has one of these names, and
    on the test data with the dates under ["value"] it fails with an
    AttributeError; with the same dates under ["date"] the fields date,
    region and value are produced. *)
Theorem trends_fails_when_date_column_is_named_value :
  (forall (R : Runtime) (df : DataFrame)
          (date_col region_col value_col agg freq : string),
     date_col = "value" \/ date_col = "region" ->
     is_ok (trends df date_col region_col value_col agg freq) = false)
  /\ trends (from_records date_in_value_payload) "value" "region" "revenue"
       "sum" "M"
     = Err AttributeError
  /\ rename [("value", bucket_col)]
       (rename [("region", "region"); ("revenue", "value")]
          ["value"; "region"; "revenue"])
     = [bucket_col; "region"; bucket_col]
  /\ trends (from_records payload) "date" "region" "revenue" "sum" "M"
     = Ok {| columns := ["region"; "value"; "date"];
             rows := [ [Str "A"; Num 100; Str "2025-01-31"];
                       [Str "B"; Num 90; Str "2025-01-31"];
                       [Str "A"; Num 150; Str "2025-02-28"] ] |}.
Proof.
  split.
  { intros R df date_col region_col value_col agg freq Hname.
    destruct (trends df date_col region_col value_col agg freq) as [out | e]
      eqn:Ht; [| reflexivity].
    apply trends_fields in Ht as (Hreg & Hval & _).
    destruct Hname; congruence. }
  repeat split; vm_compute; reflexivity.
Qed.



(** * Further properties of the store, the routes and the engine *)

(** ** The store keeps what it holds *)

(** X1.  Storing a dataset always succeeds and changes nothing under any
    other identifier: the frame and the name found there are the ones found
    before, so a dataset that resolved keeps resolving.  Under the
    identifier drawn, the new frame replaces whatever was there. *)
Theorem put_dataframe_keeps_others (st : DatasetStore) (uid : string)
    (df : DataFrame) (nm : option string) :
  exists (meta : DatasetMeta) (st' : DatasetStore),
    put_dataframe st uid df nm = Ok (meta, st')
    /\ get st' uid = Ok df
    /\ (forall id, id <> uid ->
          get st' id = get st id /\ _names st' !! id = _names st !! id)
    /\ (forall id, is_ok (get st id) = true -> is_ok (get st' id) = true).
Proof.
  unfold put_dataframe. eexists. eexists. split; [reflexivity |].
  assert (Hother : forall id, id <> uid ->
            get {| _data := <[uid:=df]> (_data st);
                   _names := <[uid:=name_or nm uid]> (_names st) |} id
            = get st id).
  { intros id Hne. unfold get. simpl.
    rewrite lookup_insert_ne by congruence. reflexivity. }
  split; [| split].
  - unfold get. simpl. rewrite lookup_insert_eq. reflexivity.
  - intros id Hne. split; [apply Hother; exact Hne |].
    simpl. rewrite lookup_insert_ne by congruence. reflexivity.
  - intros id Hok. destruct (String.string_dec id uid) as [-> | Hne].
    + unfold get. simpl. rewrite lookup_insert_eq. reflexivity.
    + rewrite (Hother id Hne). exact Hok.
Qed.

(** ** [DatasetStore.list] *)

Lemma str_leb_total (s t : string) : str_leb s t = false -> str_leb t s = true.
Proof.
  unfold str_leb. rewrite (string_compare_antisym s t).
  destruct (String_as_OT.compare s t); simpl; congruence.
Qed.

Lemma str_leb_trans (s t u : string) :
  str_leb s t = true -> str_leb t u = true -> str_leb s u = true.
Proof.
  unfold str_leb. intros Hst Htu.
  pose proof (row_le_trans [0%nat] [Str s] [Str t] [Str u]) as Htr.
  unfold row_le, row_compare, cell in Htr. simpl in Htr.
  destruct (String_as_OT.compare s t) eqn:H1; try discriminate;
    destruct (String_as_OT.compare t u) eqn:H2; try discriminate;
    destruct (String_as_OT.compare s u) eqn:H3; try reflexivity;
    exfalso; apply Htr; try discriminate; reflexivity.
Qed.

Section Store_list.
Variable lower : string -> string.

Lemma insert_meta_Forall (P : DatasetMeta -> Prop) (x : DatasetMeta)
    (l : list DatasetMeta) :
  P x -> Forall P l -> Forall P (insert_meta lower x l).
Proof.
  intros Hx. induction 1 as [| y l Hy Hl IH]; simpl.
  - repeat constructor. exact Hx.
  - destruct (str_leb _ _); repeat constructor; auto.
Qed.

Lemma insert_meta_perm (x : DatasetMeta) (l : list DatasetMeta) :
  Permutation (x :: l) (insert_meta lower x l).
Proof.
  induction l as [| y l IH]; simpl; [reflexivity |].
  destruct (str_leb _ _); [reflexivity |].
  rewrite perm_swap. constructor. exact IH.
Qed.

Lemma insert_meta_sorted (x : DatasetMeta) (l : list DatasetMeta) :
  StronglySorted (name_le lower) l ->
  StronglySorted (name_le lower) (insert_meta lower x l).
Proof.
  induction 1 as [| y l Hs IH Hfa]; simpl.
  - repeat constructor.
  - destruct (str_leb (lower (name x)) (lower (name y))) eqn:Hxy.
    + constructor; [constructor; assumption |].
      constructor; [exact Hxy |].
      eapply Forall_impl; [| exact Hfa].
      intros z Hyz. exact (str_leb_trans _ _ _ Hxy Hyz).
    + constructor; [exact IH |].
      apply insert_meta_Forall; [| exact Hfa].
      apply str_leb_total. exact Hxy.
Qed.

Lemma sort_metas (l : list DatasetMeta) :
  StronglySorted (name_le lower) (fold_right (insert_meta lower) [] l)
  /\ Permutation l (fold_right (insert_meta lower) [] l).
Proof.
  induction l as [| x l [IHs IHp]]; simpl.
  - split; constructor.
  - split; [apply insert_meta_sorted; exact IHs |].
    rewrite <- insert_meta_perm. constructor. exact IHp.
Qed.
End Store_list.




(** ** Frames built from records *)

Lemma positions_lt (c : string) (cols : list string) :
  Forall (fun i => (i < length cols)%nat) (positions c cols).
Proof.
  unfold positions.
  assert (Hgen : forall s,
            Forall (fun i => (i < s + length cols)%nat)
              (map fst (filter (fun ic => String.eqb (snd ic) c)
                          (combine (seq s (length cols)) cols)))).
  { induction cols as [| x cols IH]; intros s; simpl; [constructor |].
    assert (Hrest : Forall (fun i => (i < s + S (length cols))%nat)
                      (map fst (filter (fun ic => String.eqb (snd ic) c)
                                  (combine (seq (S s) (length cols)) cols)))).
    { eapply Forall_impl; [| apply (IH (S s))]. simpl. intros i Hi. lia. }
    destruct (String.eqb x c); simpl; [constructor; [lia |] |]; exact Hrest. }
  apply (Hgen 0%nat).
Qed.

(** A label that occurs once names one column, inside the frame. *)
Lemma positions_once (c : string) (cols : list string) :
  occurrences c cols = 1%nat ->
  exists i, positions c cols = [i]
            /\ nth i cols EmptyString = c /\ (i < length cols)%nat.
Proof.
  intros Hocc. rewrite <- positions_length in Hocc.
  pose proof (positions_nth c cols) as Hn.
  pose proof (positions_lt c cols) as Hl.
  destruct (positions c cols) as [| i [| j p]]; try discriminate.
  inversion Hn; subst. inversion Hl; subst. eauto.
Qed.

Lemma occurrences_NoDup (c : string) (cols : list string) :
  NoDup cols -> In c cols -> occurrences c cols = 1%nat.
Proof.
  intros Hnd Hin. unfold occurrences.
  apply (NoDup_count_occ String.string_dec) with (x := c) in Hnd.
  apply (count_occ_In String.string_dec) in Hin. lia.
Qed.

Lemma getitem_once (df : DataFrame) (c : string) :
  occurrences c (columns df) = 1%nat ->
  exists i, positions c (columns df) = [i]
            /\ nth i (columns df) EmptyString = c
            /\ (i < length (columns df))%nat
            /\ getitem df c = Series (map (fun r => cell r i) (rows df)).
Proof.
  intros Hocc. destruct (positions_once _ _ Hocc) as (i & Hp & Hn & Hl).
  exists i. unfold getitem. rewrite Hp. auto.
Qed.

Lemma from_records_rows (records : list Record_) :
  union_keys records <> [] ->
  rows (from_records records)
  = map (fun r => map (dict_get r) (union_keys records)) records.
Proof.
  unfold from_records. simpl. destruct (union_keys records); congruence.
Qed.

Lemma cell_map_nth (f : string -> Scalar) (cols : list string) (i : nat) :
  (i < length cols)%nat ->
  cell (map f cols) i = f (nth i cols EmptyString).
Proof.
  intros Hi. unfold cell.
  rewrite (nth_indep _ Null (f EmptyString)) by (rewrite length_map; exact Hi).
  apply map_nth.
Qed.

(** X3.  Every key of the records is a column of the frame, and that column
    is a Series whose i-th cell is what the i-th record holds under the key,
    missing when the record has no such key. *)
Theorem from_records_column (records : list Record_) (c : string) :
  (exists r, In r records /\ In c (map fst r)) ->
  has_column (from_records records) c = true
  /\ getitem (from_records records) c
     = Series (map (fun r => dict_get r c) records).
Proof.
  intros Hex. apply union_keys_In in Hex.
  assert (Hne : union_keys records <> [])
    by (intros Hnil; rewrite Hnil in Hex; exact Hex).
  split.
  - unfold has_column. apply existsb_eqb_In. exact Hex.
  - destruct (getitem_once (from_records records) c)
      as (i & _ & Hn & Hl & ->).
    { apply occurrences_NoDup; [apply first_seen_NoDup | exact Hex]. }
    f_equal. rewrite (from_records_rows _ Hne), map_map.
    apply map_ext. intros r. simpl in Hn, Hl.
    rewrite (cell_map_nth _ _ _ Hl), Hn. reflexivity.
Qed.

Lemma from_records_column_witness :
  has_column (from_records gaps_payload) "region" = true
  /\ getitem (from_records gaps_payload) "region"
     = Series (map (fun r => dict_get r "region") gaps_payload).
Proof.
  apply (from_records_column gaps_payload "region").
  exists [("region", Str "A"); ("revenue", Num 3)].
  split; simpl; auto.
Defined.

(** ** Rows read back as records *)

Lemma dict_set_fresh {V : Type} (d : list (string * V)) (k : string) (v : V) :
  ~ In k (map fst d) -> dict_set d k v = (d ++ [(k, v)])%list.
Proof.
  intros Hk. unfold dict_set.
  destruct (existsb _ d) eqn:He; [| reflexivity].
  apply existsb_exists in He as (kv & Hin & Heq).
  apply String.eqb_eq in Heq. exfalso. apply Hk. subst k.
  apply in_map. exact Hin.
Qed.

Lemma fold_dict_set_nodup {V : Type} (kvs acc : list (string * V)) :
  NoDup (map fst (acc ++ kvs)%list) ->
  fold_left (fun d kv => dict_set d (fst kv) (snd kv)) kvs acc
  = (acc ++ kvs)%list.
Proof.
  revert acc. induction kvs as [| [k v] kvs IH]; intros acc Hnd; simpl.
  - rewrite app_nil_r. reflexivity.
  - rewrite dict_set_fresh.
    + rewrite IH; rewrite <- app_assoc; [reflexivity | exact Hnd].
    + rewrite map_app in Hnd. simpl in Hnd.
      apply NoDup_remove_2 in Hnd. intros Hin. apply Hnd.
      apply in_or_app. left. exact Hin.
Qed.

Lemma dict_get_combine (f : string -> Scalar) (cols : list string)
    (k : string) :
  dict_get (combine cols (map f cols)) k
  = if existsb (String.eqb k) cols then f k else Null.
Proof.
  unfold dict_get. induction cols as [| c cols IH]; simpl; [reflexivity |].
  rewrite (String.eqb_sym k c).
  destruct (String.eqb c k) eqn:Hck; simpl.
  - apply String.eqb_eq in Hck. subst. reflexivity.
  - exact IH.
Qed.

Lemma dict_get_absent (r : Record_) (k : string) :
  ~ In k (map fst r) -> dict_get r k = Null.
Proof.
  intros Hk. unfold dict_get.
  destruct (find _ r) as [kv |] eqn:Hf; [| reflexivity].
  apply find_some in Hf as [Hin Heq]. apply String.eqb_eq in Heq.
  exfalso. apply Hk. subst k. apply in_map. exact Hin.
Qed.

Lemma to_dict_records_nodup (df : DataFrame) :
  NoDup (columns df) ->
  Forall (fun r => length r = length (columns df)) (rows df) ->
  to_dict_records df = map (fun r => combine (columns df) r) (rows df).
Proof.
  intros Hnd Hrect. unfold to_dict_records.
  apply map_ext_in. intros r Hr.
  rewrite Forall_forall in Hrect. specialize (Hrect r Hr).
  apply fold_dict_set_nodup. simpl.
  assert (Hfst : forall (cols : list string) (r' : list Scalar),
            length r' = length cols -> map fst (combine cols r') = cols).
  { induction cols as [| c cols IH]; intros [| x r'] Hlen; simpl in *;
      try reflexivity; try discriminate.
    f_equal. apply IH. lia. }
  rewrite Hfst by exact Hrect. exact Hnd.
Qed.

(** The records read back from an ingested frame: record [i], completed
    with the missing keys and reordered by column. *)
Lemma to_dict_records_from_records (records : list Record_) (n : nat) :
  union_keys records <> [] ->
  to_dict_records (df_head n (from_records records))
  = map (fun r => combine (union_keys records)
                    (map (dict_get r) (union_keys records)))
      (firstn n records).
Proof.
  intros Hne. rewrite to_dict_records_nodup.
  - unfold df_head. cbn [rows columns].
    rewrite (from_records_rows _ Hne), firstn_map, map_map. reflexivity.
  - apply first_seen_NoDup.
  - unfold df_head. cbn [rows columns]. apply Forall_forall. intros r Hr.
    apply In_firstn in Hr. rewrite (from_records_rows _ Hne) in Hr.
    apply in_map_iff in Hr as (r0 & <- & _). simpl. apply length_map.
Qed.


(** ** Ingest, then schema and preview *)

Lemma ingest_json_inv (st st' : DatasetStore) (uid : string)
    (records : list Record_) (nm : option string) (meta : DatasetMeta) :
  ingest_json st uid records nm = Ok (meta, st') ->
  records <> []
  /\ dataset_id meta = uid
  /\ meta_rows meta = len (from_records records)
  /\ meta_columns meta = columns (from_records records)
  /\ get st' (dataset_id meta) = Ok (from_records records).
Proof.
  unfold ingest_json. destruct records as [| r records]; [discriminate |].
  set (rs := r :: records). intros Hput. unfold put_records in Hput.
  destruct (get_put_dataframe st uid (from_records rs) nm)
    as (meta0 & st0 & Hput0 & Hid & _ & Hrows & Hcols & Hget).
  rewrite Hput0 in Hput. injection Hput as <- <-.
  repeat split; try assumption. discriminate.
Qed.

(** X4.  The schema of a dataset just ingested repeats the identifier, the
    columns and the row count of the ingest response; the schema and the
    preview of an identifier the store does not know are HTTP 404, and a
    preview limit outside 1..200 is HTTP 422 whatever the identifier. *)
Theorem dataset_schema_after_ingest (st st' : DatasetStore) (uid : string)
    (records : list Record_) (nm : option string) (meta : DatasetMeta) :
  ingest_json st uid records nm = Ok (meta, st') ->
  dataset_schema st' (dataset_id meta)
  = Ok {| schema_dataset_id := dataset_id meta;
          schema_columns := meta_columns meta;
          schema_rows := meta_rows meta |}
  /\ (forall id, _data st' !! id = None ->
        dataset_schema st' id = Err (HTTPException 404)
        /\ forall limit, (1 <= limit <= 200)%Z ->
             dataset_preview st' id limit = Err (HTTPException 404))
  /\ (forall id limit, (limit < 1 \/ 200 < limit)%Z ->
        dataset_preview st' id limit = Err (HTTPException 422)).
Proof.
  intros Hin.
  destruct (ingest_json_inv _ _ _ _ _ _ Hin)
    as (_ & _ & Hrows & Hcols & Hget).
  split; [| split].
  - unfold dataset_schema, get_or_404. rewrite Hget. simpl.
    rewrite Hrows, Hcols. reflexivity.
  - intros id Hnone.
    assert (H404 : get_or_404 st' id = Err (HTTPException 404))
      by (unfold get_or_404, get; rewrite Hnone; reflexivity).
    split; [unfold dataset_schema; rewrite H404; reflexivity |].
    intros limit [Hlo Hhi]. unfold dataset_preview.
    apply Z.leb_le in Hlo, Hhi. rewrite Hlo, Hhi, H404. reflexivity.
  - intros id limit Hout. unfold dataset_preview.
    destruct ((1 <=? limit)%Z && (limit <=? 200)%Z) eqn:Hr; [| reflexivity].
    apply andb_true_iff in Hr as [Hlo Hhi]. apply Z.leb_le in Hlo, Hhi. lia.
Qed.

Lemma dataset_schema_after_ingest_witness :
  exists (meta : DatasetMeta) (st' : DatasetStore),
    ingest_json STORE "0123456789ab" payload (Some "unit-test")
    = Ok (meta, st')
    /\ dataset_schema st' (dataset_id meta)
       = Ok {| schema_dataset_id := dataset_id meta;
               schema_columns := meta_columns meta;
               schema_rows := meta_rows meta |}
    /\ (forall id, _data st' !! id = None ->
          dataset_schema st' id = Err (HTTPException 404)
          /\ forall limit, (1 <= limit <= 200)%Z ->
               dataset_preview st' id limit = Err (HTTPException 404))
    /\ (forall id limit, (limit < 1 \/ 200 < limit)%Z ->
          dataset_preview st' id limit = Err (HTTPException 422)).
Proof.
  eexists. eexists. split; [reflexivity |].
  apply (dataset_schema_after_ingest STORE _ "0123456789ab" payload
           (Some "unit-test")).
  reflexivity.
Defined.

(** X5.  After an ingest of records of which one has a key, the preview
    with a limit in 1..200 reports the number of records ingested and
    returns min(limit, number of records) records; the i-th of them has the
    columns of the dataset as its keys and reads, under every key, what the
    i-th ingested record reads (missing for a key the record lacks). *)
Theorem dataset_preview_after_ingest (st st' : DatasetStore) (uid : string)
    (records : list Record_) (nm : option string) (meta : DatasetMeta)
    (limit : Z) :
  ingest_json st uid records nm = Ok (meta, st') ->
  (exists r, In r records /\ r <> []) ->
  (1 <= limit <= 200)%Z ->
  exists pv : PreviewOut,
    dataset_preview st' (dataset_id meta) limit = Ok pv
    /\ preview_rows pv = length records
    /\ length (preview pv) = Nat.min (Z.to_nat limit) (length records)
    /\ (forall (i : nat) (r : Record_),
          (i < Z.to_nat limit)%nat -> nth_error records i = Some r ->
          exists p : Record_,
            nth_error (preview pv) i = Some p
            /\ map fst p = meta_columns meta
            /\ forall k, dict_get p k = dict_get r k).
Proof.
  intros Hin (r0 & Hr0 & Hr0ne) [Hlo Hhi].
  destruct (ingest_json_inv _ _ _ _ _ _ Hin)
    as (_ & _ & Hrows & Hcols & Hget).
  assert (Hne : union_keys records <> []).
  { destruct r0 as [| [k v] r0]; [congruence |]. intros Hnil.
    assert (Hk : In k (union_keys records))
      by (apply union_keys_In; exists ((k, v) :: r0); simpl; auto).
    rewrite Hnil in Hk. exact Hk. }
  unfold dataset_preview, get_or_404.
  apply Z.leb_le in Hlo, Hhi. rewrite Hlo, Hhi, Hget. simpl.
  eexists. split; [reflexivity |]. simpl.
  rewrite (to_dict_records_from_records _ _ Hne).
  split; [unfold len; rewrite (from_records_rows _ Hne); apply length_map |].
  split; [rewrite length_map; apply length_firstn |].
  intros i r Hi Hr.
  exists (combine (union_keys records)
            (map (dict_get r) (union_keys records))).
  split; [| split].
  - rewrite nth_error_map, nth_error_firstn.
    destruct (Nat.ltb_spec i (Z.to_nat limit)) as [_ | Hge]; [| lia].
    rewrite Hr. reflexivity.
  - rewrite Hcols. simpl.
    generalize (union_keys records). intros cols.
    induction cols as [| c cols IH]; simpl; [reflexivity |].
    f_equal. exact IH.
  - intros k. rewrite dict_get_combine.
    destruct (existsb (String.eqb k) (union_keys records)) eqn:Hk;
      [reflexivity |].
    symmetry. apply dict_get_absent. intros Hkr.
    assert (Hku : In k (union_keys records)).
    { apply union_keys_In. exists r. split; [| exact Hkr].
      eapply nth_error_In. exact Hr. }
    apply existsb_eqb_In in Hku. congruence.
Qed.

Lemma dataset_preview_after_ingest_witness :
  exists (meta : DatasetMeta) (st' : DatasetStore) (pv : PreviewOut),
    ingest_json STORE "0123456789ab" gaps_payload None = Ok (meta, st')
    /\ dataset_preview st' (dataset_id meta) 2 = Ok pv
    /\ preview_rows pv = length gaps_payload
    /\ length (preview pv) = Nat.min (Z.to_nat 2) (length gaps_payload)
    /\ (forall (i : nat) (r : Record_),
          (i < Z.to_nat 2)%nat -> nth_error gaps_payload i = Some r ->
          exists p : Record_,
            nth_error (preview pv) i = Some p
            /\ map fst p = meta_columns meta
            /\ forall k, dict_get p k = dict_get r k).
Proof.
  eexists. eexists.
  assert (Hin : ingest_json STORE "0123456789ab" gaps_payload None
                = Ok (_, _)) by reflexivity.
  destruct (dataset_preview_after_ingest STORE _ "0123456789ab"
              gaps_payload None _ 2 Hin) as (pv & Hpv).
  - exists [("region", Str "A"); ("revenue", Num 3)].
    split; [simpl; auto | discriminate].
  - lia.
  - exists pv. split; [exact Hin | exact Hpv].
Defined.


(** ** [rankings]: a prefix and a reversed suffix *)



(** ** [executive_summary]: the comparison table, the empty case, the
    percentages *)

Lemma dict_set_keys {V : Type} (d : list (string * V)) (k : string) (v : V) :
  map fst (dict_set d k v)
  = if existsb (String.eqb k) (map fst d) then map fst d
    else (map fst d ++ [k])%list.
Proof.
  unfold dict_set.
  assert (Hex : existsb (fun kv => String.eqb (fst kv) k) d
                = existsb (String.eqb k) (map fst d)).
  { induction d as [| kv d IH]; simpl; [reflexivity |].
    rewrite IH, (String.eqb_sym k (fst kv)). reflexivity. }
  rewrite Hex. destruct (existsb (String.eqb k) (map fst d)).
  - rewrite map_map. apply map_ext_in. intros kv _.
    destruct (String.eqb (fst kv) k) eqn:He; [| reflexivity].
    apply String.eqb_eq in He. simpl. congruence.
  - rewrite map_app. reflexivity.
Qed.

Lemma dict_setdefault_keys {V : Type} (d : list (string * V)) (k : string)
    (v : V) :
  map fst (dict_setdefault d k v)
  = if existsb (String.eqb k) (map fst d) then map fst d
    else (map fst d ++ [k])%list.
Proof.
  unfold dict_setdefault.
  assert (Hex : existsb (fun kv => String.eqb (fst kv) k) d
                = existsb (String.eqb k) (map fst d)).
  { induction d as [| kv d IH]; simpl; [reflexivity |].
    rewrite IH, (String.eqb_sym k (fst kv)). reflexivity. }
  rewrite Hex. destruct (existsb (String.eqb k) (map fst d));
    [reflexivity | apply map_app].
Qed.

(* filling a dict key by key gives the keys in first-seen order *)
Lemma fold_keys {V X : Type} (step : list (string * V) -> X -> list (string * V))
    (key : X -> string) (xs : list X) (d : list (string * V)) :
  (forall d x, map fst (step d x) = seen_step (map fst d) (key x)) ->
  map fst (fold_left step xs d) = fold_left seen_step (map key xs) (map fst d).
Proof.
  intros Hstep. revert d. induction xs as [| x xs IH]; intros d; simpl;
    [reflexivity |].
  rewrite IH, Hstep. reflexivity.
Qed.

Lemma comparison_of_keys (metric agg : string)
    (top bottom : list RegionValue) :
  map fst (comparison_of metric agg top bottom)
  = first_seen (map region top ++ map region bottom)%list.
Proof.
  unfold comparison_of, first_seen. rewrite fold_left_app.
  rewrite (fold_keys _ region bottom)
    by (intros d x; apply dict_setdefault_keys).
  rewrite (fold_keys _ region top) by (intros d x; apply dict_set_keys).
  reflexivity.
Qed.




Lemma has_column_of_occurrences (df : DataFrame) (c : string) :
  (1 <= occurrences c (columns df))%nat -> has_column df c = true.
Proof.
  intros Hocc. unfold has_column. apply existsb_eqb_In.
  apply (count_occ_In String.string_dec). exact Hocc.
Qed.

Lemma require_columns_ok (df : DataFrame) (cols : list string) :
  Forall (fun c => (1 <= occurrences c (columns df))%nat) cols ->
  _require_columns df cols = Ok tt.
Proof.
  intros Hall. unfold _require_columns.
  replace (filter (fun c => negb (has_column df c)) cols) with (@nil string);
    [reflexivity |].
  symmetry. induction Hall as [| c cols Hc Hcols IH]; simpl; [reflexivity |].
  rewrite (has_column_of_occurrences _ _ Hc). simpl. exact IH.
Qed.

(** X8.  On a dataset without rows whose region and value columns exist,
    [region_aggregate] returns no row, [rankings] two empty lists, and
    [executive_summary] the fixed "no analyzable data" summary with empty
    findings -- for every [top_n], also 0 and below, where a dataset with
    rows makes it fail. *)
Theorem executive_summary_no_rows `{Runtime} (df : DataFrame)
    (metric region_col value_col agg : string) (top_n : Z) :
  rows df = [] ->
  occurrences region_col (columns df) = 1%nat ->
  occurrences value_col (columns df) = 1%nat ->
  region_col <> value_col ->
  is_ok (parse_agg agg) = true ->
  region_aggregate df region_col value_col agg = Ok []
  /\ rankings df region_col value_col agg top_n = Ok ([], [])
  /\ executive_summary df metric region_col value_col agg top_n
     = Ok no_data_summary.
Proof.
  intros Hrows Hr Hv Hne Hagg.
  assert (Hra : region_aggregate df region_col value_col agg = Ok []).
  { unfold region_aggregate.
    rewrite require_columns_ok by (repeat constructor; lia).
    destruct (getitem_once df region_col Hr) as (i & _ & _ & _ & ->).
    destruct (getitem_once df value_col Hv) as (j & _ & _ & _ & ->).
    rewrite Hrows. simpl.
    apply String.eqb_neq in Hne. rewrite Hne. simpl.
    destruct (parse_agg agg) as [a | e]; [reflexivity | discriminate]. }
  split; [exact Hra |]. split.
  - rewrite (rankings_eq _ _ _ _ top_n _ Hra). simpl.
    rewrite firstn_nil. destruct (0 <? top_n)%Z; reflexivity.
  - unfold executive_summary. rewrite Hra. reflexivity.
Qed.

Lemma executive_summary_no_rows_witness :
  region_aggregate (with_rows (from_records payload) []) "region" "revenue"
    "sum" = Ok []
  /\ rankings (with_rows (from_records payload) []) "region" "revenue" "sum"
       0 = Ok ([], [])
  /\ executive_summary (with_rows (from_records payload) []) "revenue"
       "region" "revenue" "sum" 0 = Ok no_data_summary.
Proof.
  apply (executive_summary_no_rows (with_rows (from_records payload) [])
           "revenue" "region" "revenue" "sum" 0);
    try reflexivity.
  discriminate.
Defined.

(** ** Sums of rationals *)

Lemma Qsum_acc (qs : list Q) (a : Q) :
  (fold_left Qplus qs a == a + Qsum qs)%Q.
Proof.
  unfold Qsum. revert a. induction qs as [| q qs IH]; intros a; simpl.
  - ring.
  - rewrite (IH (a + q)%Q), (IH (0 + q)%Q). ring.
Qed.

Lemma Qsum_cons (q : Q) (qs : list Q) : (Qsum (q :: qs) == q + Qsum qs)%Q.
Proof. unfold Qsum at 1. simpl. rewrite Qsum_acc. ring. Qed.

Lemma Qsum_app (l1 l2 : list Q) :
  (Qsum (l1 ++ l2) == Qsum l1 + Qsum l2)%Q.
Proof.
  induction l1 as [| q l1 IH]; simpl.
  - unfold Qsum at 2. simpl. ring.
  - rewrite !Qsum_cons, IH. ring.
Qed.

Lemma Qsum_perm (l1 l2 : list Q) :
  Permutation l1 l2 -> (Qsum l1 == Qsum l2)%Q.
Proof.
  induction 1 as [| x l1 l2 Hp IH | x y l | l1 l2 l3 H12 IH12 H23 IH23].
  - reflexivity.
  - rewrite !Qsum_cons, IH. reflexivity.
  - rewrite !Qsum_cons. ring.
  - rewrite IH12. exact IH23.
Qed.

Lemma Qsum_nonneg (qs : list Q) :
  Forall (fun q => (0 <= q)%Q) qs -> (0 <= Qsum qs)%Q.
Proof.
  induction 1 as [| q qs Hq Hqs IH].
  - unfold Qsum. simpl. apply Qle_refl.
  - rewrite Qsum_cons.
    apply (Qle_trans _ (0 + 0)%Q); [discriminate |].
    apply Qplus_le_compat; assumption.
Qed.

Lemma Qsum_ge_member (qs : list Q) (q : Q) :
  Forall (fun x => (0 <= x)%Q) qs -> In q qs -> (q <= Qsum qs)%Q.
Proof.
  induction 1 as [| x qs Hx Hqs IH]; intros Hin; [destruct Hin |].
  rewrite Qsum_cons. destruct Hin as [-> | Hin].
  - apply (Qle_trans _ (q + 0)%Q); [rewrite Qplus_0_r; apply Qle_refl |].
    apply Qplus_le_compat; [apply Qle_refl | apply Qsum_nonneg; exact Hqs].
  - apply (Qle_trans _ (0 + q)%Q); [rewrite Qplus_0_l; apply Qle_refl |].
    apply Qplus_le_compat; [exact Hx | apply IH; exact Hin].
Qed.

Lemma Qsum_scale (qs : list Q) (c : Q) :
  (Qsum (map (fun q => q * c) qs) == Qsum qs * c)%Q.
Proof.
  induction qs as [| q qs IH]; simpl.
  - unfold Qsum. simpl. ring.
  - rewrite !Qsum_cons, IH. ring.
Qed.

Lemma Qsum_ext {A : Type} (f g : A -> Q) (l : list A) :
  (forall a, In a l -> (f a == g a)%Q) ->
  (Qsum (map f l) == Qsum (map g l))%Q.
Proof.
  induction l as [| a l IH]; intros Hfg; simpl; [reflexivity |].
  rewrite !Qsum_cons, (Hfg a) by (left; reflexivity).
  rewrite IH by (intros b Hb; apply Hfg; right; exact Hb). reflexivity.
Qed.

(** X9.  When no aggregated value is negative and the grand total is not
    zero, the percentage that [executive_summary] computes for a region
    lies between 0 and 100, and the percentages of all the regions add up
    to 100. *)
Theorem pct_bounds (rows_ : list AggRow) :
  Forall (fun r => (0 <= agg_value r)%Q) rows_ ->
  ~ (Qsum (map agg_value rows_) == 0)%Q ->
  Forall (fun r => (0 <= pct (Qsum (map agg_value rows_)) (agg_value r)
                    /\ pct (Qsum (map agg_value rows_)) (agg_value r)
                       <= 100)%Q) rows_
  /\ (Qsum (map (fun r => pct (Qsum (map agg_value rows_)) (agg_value r))
              rows_) == 100)%Q.
Proof.
  intros Hnn Hne.
  set (total := Qsum (map agg_value rows_)) in *.
  assert (Hvals : Forall (fun q => (0 <= q)%Q) (map agg_value rows_))
    by (apply Forall_map; exact Hnn).
  assert (Hpos : (0 < total)%Q).
  { pose proof (Qsum_nonneg _ Hvals) as Hge. fold total in Hge.
    apply Qle_lteq in Hge. destruct Hge as [Hlt | Heq]; [exact Hlt |].
    exfalso. apply Hne. symmetry. exact Heq. }
  assert (Hpct : forall v, (pct total v == v * (100 / total))%Q).
  { intros v. unfold pct.
    destruct (Qeq_bool total 0) eqn:Hz;
      [apply Qeq_bool_eq in Hz; contradiction |].
    field. exact Hne. }
  split.
  - apply Forall_forall. intros r Hr. rewrite Hpct.
    assert (H0 : (0 <= agg_value r)%Q)
      by (rewrite Forall_forall in Hnn; apply Hnn; exact Hr).
    assert (Hle : (agg_value r <= total)%Q)
      by (apply Qsum_ge_member; [exact Hvals | apply in_map; exact Hr]).
    assert (Hc : (0 < 100 / total)%Q).
    { apply Qlt_shift_div_l; [exact Hpos |]. rewrite Qmult_0_l. reflexivity. }
    split.
    + apply Qmult_le_0_compat; [exact H0 | apply Qlt_le_weak; exact Hc].
    + apply (Qle_trans _ (total * (100 / total))%Q).
      * apply Qmult_le_compat_r; [exact Hle | apply Qlt_le_weak; exact Hc].
      * assert (He : (total * (100 / total) == 100)%Q) by (field; exact Hne).
        rewrite He. apply Qle_refl.
  - rewrite (Qsum_ext _ (fun r => agg_value r * (100 / total))%Q)
      by (intros r _; apply Hpct).
    rewrite <- (map_map agg_value (fun q => q * (100 / total))%Q).
    rewrite Qsum_scale. fold total. field. exact Hne.
Qed.

Lemma pct_bounds_witness :
  Forall (fun r => (0 <= pct (Qsum (map agg_value
                                      [ {| agg_region := Str "A";
                                           agg_value := 250 |};
                                        {| agg_region := Str "B";
                                           agg_value := 90 |} ]))
                           (agg_value r)
                    /\ pct (Qsum (map agg_value
                                    [ {| agg_region := Str "A";
                                         agg_value := 250 |};
                                      {| agg_region := Str "B";
                                         agg_value := 90 |} ]))
                         (agg_value r) <= 100)%Q)
    [ {| agg_region := Str "A"; agg_value := 250 |};
      {| agg_region := Str "B"; agg_value := 90 |} ]
  /\ (Qsum (map (fun r => pct (Qsum (map agg_value
                                       [ {| agg_region := Str "A";
                                            agg_value := 250 |};
                                         {| agg_region := Str "B";
                                            agg_value := 90 |} ]))
                            (agg_value r))
              [ {| agg_region := Str "A"; agg_value := 250 |};
                {| agg_region := Str "B"; agg_value := 90 |} ]) == 100)%Q.
Proof.
  apply (pct_bounds [ {| agg_region := Str "A"; agg_value := 250 |};
                      {| agg_region := Str "B"; agg_value := 90 |} ]).
  - repeat constructor; simpl; discriminate.
  - vm_compute. discriminate.
Defined.


(** ** What the groups add up to *)

Lemma Qsum_nil : Qsum [] = 0%Q.
Proof. reflexivity. Qed.

Section Group_totals.
Context {K : Type}.
Variable cmp : K -> K -> comparison.
Variable w : Scalar -> Q.

(* the weight of the cells of all groups *)
Let total (gs : list (K * list Scalar)) : Q :=
  Qsum (map (fun g => Qsum (map w (snd g))) gs).

Lemma group_insert_total (k : K) (v : Scalar) (gs : list (K * list Scalar)) :
  (total (group_insert cmp k v gs) == total gs + w v)%Q.
Proof.
  unfold total.
  induction gs as [| [k' vs] gs IH]; cbn [group_insert map fst snd].
  - rewrite !Qsum_cons, !Qsum_nil. ring.
  - destruct (cmp k k'); cbn [map fst snd].
    + rewrite !Qsum_cons, map_app, Qsum_app. cbn [map].
      rewrite Qsum_cons, Qsum_nil. ring.
    + rewrite !Qsum_cons, Qsum_nil. ring.
    + rewrite !Qsum_cons, IH. ring.
Qed.

Lemma groupby_total (kvs : list (K * Scalar)) :
  (total (groupby cmp kvs) == Qsum (map w (map snd kvs)))%Q.
Proof.
  unfold groupby.
  assert (Hgen : forall gs,
            (total (fold_left
                      (fun gs kv => group_insert cmp (fst kv) (snd kv) gs)
                      kvs gs)
             == total gs + Qsum (map w (map snd kvs)))%Q).
  { induction kvs as [| kv kvs IH]; intros gs; cbn [fold_left map].
    - rewrite Qsum_nil. ring.
    - rewrite IH, group_insert_total, Qsum_cons. ring. }
  rewrite Hgen. unfold total. cbn [map]. rewrite Qsum_nil. ring.
Qed.

Lemma group_insert_values (P : Scalar -> Prop) (k : K) (v : Scalar)
    (gs : list (K * list Scalar)) :
  P v -> Forall (fun g => Forall P (snd g)) gs ->
  Forall (fun g => Forall P (snd g)) (group_insert cmp k v gs).
Proof.
  intros Hv. induction 1 as [| [k' vs] gs Hg Hgs IH]; simpl.
  - repeat constructor. exact Hv.
  - destruct (cmp k k').
    + constructor; [| exact Hgs]. simpl.
      apply Forall_app. split; [exact Hg | repeat constructor; exact Hv].
    + constructor; [simpl; repeat constructor; exact Hv |].
      constructor; assumption.
    + constructor; [exact Hg | exact IH].
Qed.

Lemma groupby_values (P : Scalar -> Prop) (kvs : list (K * Scalar)) :
  Forall P (map snd kvs) ->
  Forall (fun g => Forall P (snd g)) (groupby cmp kvs).
Proof.
  unfold groupby.
  assert (Hgen : forall gs, Forall (fun g => Forall P (snd g)) gs ->
            Forall P (map snd kvs) ->
            Forall (fun g => Forall P (snd g))
              (fold_left (fun gs kv => group_insert cmp (fst kv) (snd kv) gs)
                 kvs gs)).
  { induction kvs as [| kv kvs IH]; intros gs Hgs Hkvs; simpl; auto.
    inversion Hkvs; subst. apply IH; [| assumption].
    apply group_insert_values; assumption. }
  apply Hgen. constructor.
Qed.
End Group_totals.

(** ** Which keys have a group *)

Lemma scalar_eq_refl (a : Scalar) : scalar_eq a a.
Proof.
  unfold scalar_eq. pose proof (scalar_compare_antisym a a) as Ha.
  destruct (scalar_compare a a); simpl in Ha; congruence.
Qed.

Lemma group_insert_has_key {V : Type} (k : Scalar) (v : V)
    (gs : list (Scalar * list V)) :
  InA scalar_eq k (map fst (group_insert scalar_compare k v gs)).
Proof.
  induction gs as [| [k' vs] gs IH]; simpl.
  - constructor. apply scalar_eq_refl.
  - destruct (scalar_compare k k') eqn:Hc; simpl.
    + constructor. exact Hc.
    + constructor. apply scalar_eq_refl.
    + apply InA_cons_tl. exact IH.
Qed.

Lemma group_insert_keeps_keys {V : Type} (x k : Scalar) (v : V)
    (gs : list (Scalar * list V)) :
  InA scalar_eq x (map fst gs) ->
  InA scalar_eq x (map fst (group_insert scalar_compare k v gs)).
Proof.
  induction gs as [| [k' vs] gs IH]; simpl; intros Hin.
  - inversion Hin.
  - destruct (scalar_compare k k'); simpl.
    + exact Hin.
    + apply InA_cons_tl. exact Hin.
    + inversion Hin; subst; [apply InA_cons_hd; assumption |].
      apply InA_cons_tl. apply IH. assumption.
Qed.

Lemma group_insert_keys_sound {V : Type} (x k : Scalar) (v : V)
    (gs : list (Scalar * list V)) :
  InA scalar_eq x (map fst (group_insert scalar_compare k v gs)) ->
  scalar_eq x k \/ InA scalar_eq x (map fst gs).
Proof.
  induction gs as [| [k' vs] gs IH]; simpl; intros Hin.
  - inversion Hin; subst; [left; assumption |].
    match goal with H : InA _ _ [] |- _ => inversion H end.
  - destruct (scalar_compare k k'); simpl in Hin.
    + right. exact Hin.
    + inversion Hin; subst; [left | right]; assumption.
    + inversion Hin; subst; [right; apply InA_cons_hd; assumption |].
      destruct (IH ltac:(assumption)) as [Hk | Hgs]; [left; exact Hk |].
      right. apply InA_cons_tl. exact Hgs.
Qed.

Lemma groupby_keys {V : Type} (kvs : list (Scalar * V)) (x : Scalar) :
  InA scalar_eq x (map fst (groupby scalar_compare kvs))
  <-> InA scalar_eq x (map fst kvs).
Proof.
  unfold groupby.
  assert (Hgen : forall gs,
            InA scalar_eq x
              (map fst (fold_left
                 (fun gs kv => group_insert scalar_compare (fst kv) (snd kv) gs)
                 kvs gs))
            <-> InA scalar_eq x (map fst gs)
                \/ InA scalar_eq x (map fst kvs)).
  { induction kvs as [| kv kvs IH]; intros gs; simpl.
    - split; [auto |]. intros [Hg | Hn]; [exact Hg | inversion Hn].
    - rewrite IH. split.
      + intros [Hg | Hk]; [| right; apply InA_cons_tl; exact Hk].
        apply group_insert_keys_sound in Hg.
        destruct Hg as [He | Hg]; [right; apply InA_cons_hd; exact He |].
        left. exact Hg.
      + intros [Hg | Hk].
        * left. apply group_insert_keeps_keys. exact Hg.
        * inversion Hk as [? ? Hxk | ? ? Hk']; subst; [| right; assumption].
          left.
          assert (Hx : InA scalar_eq (fst kv)
                         (map fst (group_insert scalar_compare (fst kv)
                                     (snd kv) gs)))
            by apply group_insert_has_key.
          apply InA_alt in Hx as (y & Hy & Hin).
          apply InA_alt. exists y. split; [| exact Hin].
          unfold scalar_eq in *.
          rewrite (scalar_compare_eq_l _ _ y Hxk). exact Hy. }
  rewrite Hgen. split; [intros [Hn | Hk]; [inversion Hn | exact Hk] | auto].
Qed.

Lemma InA_perm {A : Type} (eqA : A -> A -> Prop) (x : A) (l l' : list A) :
  Permutation l l' -> InA eqA x l -> InA eqA x l'.
Proof.
  intros Hp Hin. apply InA_alt in Hin as (y & Hxy & Hy).
  apply InA_alt. exists y. split; [exact Hxy |].
  eapply Permutation_in; eauto.
Qed.

(** ** Reductions that cannot fail *)

Lemma mapM_ok_map {A B : Type} (f : A -> Result B) (h : A -> B)
    (l : list A) :
  (forall a, In a l -> f a = Ok (h a)) -> mapM f l = Ok (map h l).
Proof.
  induction l as [| a l IH]; intros Hf; simpl; [reflexivity |].
  rewrite (Hf a) by (left; reflexivity). simpl.
  rewrite IH by (intros b Hb; apply Hf; right; exact Hb). reflexivity.
Qed.

Lemma mapM_total {A B : Type} (f : A -> Result B) (l : list A) :
  (forall a, In a l -> is_ok (f a) = true) -> is_ok (mapM f l) = true.
Proof.
  induction l as [| a l IH]; intros Hf; simpl; [reflexivity |].
  specialize (IH (fun b Hb => Hf b (or_intror Hb))).
  specialize (Hf a (or_introl eq_refl)).
  destruct (f a); [| discriminate]. simpl.
  destruct (mapM f l); [reflexivity | discriminate].
Qed.

Lemma nums_of_numeric (vs : list Scalar) :
  Forall numeric_or_missing vs ->
  nums_of (filter notna vs) = Some (numeric_cells vs).
Proof.
  induction 1 as [| c vs Hc Hvs IH]; simpl; [reflexivity |].
  destruct c as [| q | s]; simpl; [exact IH | rewrite IH; reflexivity |].
  destruct Hc.
Qed.

Lemma reduce_numeric (a : Agg) (vs : list Scalar) :
  Forall numeric_or_missing vs -> is_ok (reduce a vs) = true.
Proof.
  intros Hvs. unfold reduce. rewrite (nums_of_numeric _ Hvs).
  destruct a; try reflexivity; destruct (numeric_cells vs); reflexivity.
Qed.

Lemma coerce_dropna_numbers `{Runtime} {G : Type} (key : G -> Scalar)
    (h : G -> Q) (gs : list G) :
  coerce_dropna (map (fun g => (key g, Num (h g))) gs)
  = map (fun g => {| agg_region := key g; agg_value := h g |}) gs.
Proof.
  unfold coerce_dropna. induction gs as [| g gs IH]; simpl; [reflexivity |].
  rewrite IH. reflexivity.
Qed.

Lemma combine_columns (rs : list (list Scalar)) (i j : nat) :
  map fst (combine (map (fun r => cell r i) rs) (map (fun r => cell r j) rs))
  = map (fun r => cell r i) rs
  /\ map snd (combine (map (fun r => cell r i) rs)
                (map (fun r => cell r j) rs))
     = map (fun r => cell r j) rs.
Proof.
  induction rs as [| r rs [IH1 IH2]]; simpl; [split; reflexivity |].
  rewrite IH1, IH2. split; reflexivity.
Qed.

(** The aggregation of a frame whose two columns are series, when every
    group reduces to a number [h]. *)
Lemma region_aggregate_numbers `{Runtime} (df : DataFrame)
    (region_col value_col agg : string) (a : Agg)
    (keys vals : list Scalar) (h : list Scalar -> Q) :
  getitem df region_col = Series keys ->
  getitem df value_col = Series vals ->
  region_col <> value_col ->
  parse_agg agg = Ok a ->
  (forall g, In g (groupby scalar_compare (combine keys vals)) ->
     reduce a (snd g) = Ok (Num (h (snd g)))) ->
  region_aggregate df region_col value_col agg
  = Ok (sort_values_desc
          (map (fun g => {| agg_region := fst g; agg_value := h (snd g) |})
             (groupby scalar_compare (combine keys vals)))).
Proof.
  intros Hk Hv Hne Ha Hred. unfold region_aggregate.
  rewrite require_columns_ok.
  2:{ apply getitem_series_once in Hk, Hv. repeat constructor; lia. }
  rewrite Hk, Hv. simpl.
  apply String.eqb_neq in Hne. rewrite Hne, Ha. simpl.
  rewrite (mapM_ok_map _ (fun g => (fst g, Num (h (snd g))))).
  - simpl. rewrite (coerce_dropna_numbers fst (fun g => h (snd g))).
    reflexivity.
  - intros g Hg. rewrite (Hred g Hg). reflexivity.
Qed.

Lemma series_columns (df : DataFrame) (c1 c2 : string)
    (keys vals : list Scalar) :
  getitem df c1 = Series keys -> getitem df c2 = Series vals ->
  map fst (combine keys vals) = keys /\ map snd (combine keys vals) = vals.
Proof.
  unfold getitem. intros Hk Hv.
  destruct (positions c1 (columns df)) as [| i [| ? ?]]; try discriminate.
  destruct (positions c2 (columns df)) as [| j [| ? ?]]; try discriminate.
  injection Hk as <-. injection Hv as <-. apply combine_columns.
Qed.


Lemma count_weight (vs : list Scalar) :
  (inject_Z (Z.of_nat (length (filter notna vs)))
   == Qsum (map (fun c => if notna c then 1 else 0) vs))%Q.
Proof.
  induction vs as [| c vs IH]; cbn [filter map length].
  - rewrite Qsum_nil. reflexivity.
  - rewrite Qsum_cons, <- IH. destruct (notna c); cbn [length].
    + rewrite Nat2Z.inj_succ, <- Z.add_1_l, inject_Z_plus. reflexivity.
    + ring.
Qed.

Lemma numeric_weight (vs : list Scalar) :
  (Qsum (numeric_cells vs)
   == Qsum (map (fun c => match c with Num q => q | _ => 0 end) vs))%Q.
Proof.
  unfold numeric_cells.
  induction vs as [| c vs IH]; cbn [flat_map map]; [reflexivity |].
  rewrite Qsum_app, Qsum_cons, IH.
  destruct c; rewrite ?Qsum_cons, ?Qsum_nil; ring.
Qed.

Lemma In_InA_scalar (k : Scalar) (ks : list Scalar) :
  In k ks -> InA scalar_eq k ks.
Proof.
  intros Hin. apply InA_alt. exists k. split; [apply scalar_eq_refl | exact Hin].
Qed.

Section Conservation.
Context `{Runtime}.

(* the rows before the sort, one per group *)
Lemma sorted_groups (h : list Scalar -> Q)
    (gs : list (Scalar * list Scalar)) :
  (Qsum (map agg_value
           (sort_values_desc
              (map (fun g => {| agg_region := fst g;
                                agg_value := h (snd g) |}) gs)))
   == Qsum (map (fun g => h (snd g)) gs))%Q
  /\ forall k, InA scalar_eq k
                 (map agg_region
                    (sort_values_desc
                       (map (fun g => {| agg_region := fst g;
                                         agg_value := h (snd g) |}) gs)))
               <-> InA scalar_eq k (map fst gs).
Proof.
  set (l := map _ gs).
  pose proof (sort_values_desc_perm l) as Hp.
  assert (Hv : map agg_value l = map (fun g => h (snd g)) gs)
    by (subst l; rewrite map_map; reflexivity).
  assert (Hk : map agg_region l = map fst gs)
    by (subst l; rewrite map_map; reflexivity).
  split.
  - rewrite <- Hv. apply Qsum_perm. apply Permutation_map.
    apply Permutation_sym. exact Hp.
  - intros k. rewrite <- Hk. split; apply InA_perm; apply Permutation_map;
      [apply Permutation_sym |]; exact Hp.
Qed.
End Conservation.

(** X10.  With [agg = "count"] on a frame whose region and value columns
    are two different columns, [region_aggregate] always returns; the
    values of its rows add up to the number of cells of the value column
    that are not missing; and every key of the region column, the missing
    key included, has its row (no group is dropped), while no row has a
    region that the column does not hold. *)
Theorem region_aggregate_count_conserves `{Runtime} (df : DataFrame)
    (region_col value_col : string) (keys vals : list Scalar) :
  getitem df region_col = Series keys ->
  getitem df value_col = Series vals ->
  region_col <> value_col ->
  exists out : list AggRow,
    region_aggregate df region_col value_col "count" = Ok out
    /\ (Qsum (map agg_value out)
        == inject_Z (Z.of_nat (length (filter notna vals))))%Q
    /\ (forall k, In k keys -> InA scalar_eq k (map agg_region out))
    /\ (forall r, In r out -> InA scalar_eq (agg_region r) keys).
Proof.
  intros Hk Hv Hne.
  destruct (series_columns _ _ _ _ _ Hk Hv) as [Hfst Hsnd].
  eexists. split.
  { apply (region_aggregate_numbers df region_col value_col "count" Count
             keys vals
             (fun vs => inject_Z (Z.of_nat (length (filter notna vs)))));
      try assumption; reflexivity. }
  destruct (sorted_groups
              (fun vs => inject_Z (Z.of_nat (length (filter notna vs))))
              (groupby scalar_compare (combine keys vals))) as [Hsum Hkeys].
  split; [| split].
  - rewrite Hsum.
    rewrite (Qsum_ext _ (fun g => Qsum (map (fun c => if notna c then 1 else 0)
                                          (snd g))))
      by (intros g _; apply count_weight).
    rewrite (groupby_total scalar_compare
               (fun c => if notna c then 1 else 0)%Q).
    rewrite Hsnd. symmetry. apply count_weight.
  - intros k Hin. apply Hkeys. apply groupby_keys. rewrite Hfst.
    apply In_InA_scalar. exact Hin.
  - intros r Hin. rewrite <- Hfst. apply groupby_keys. apply Hkeys.
    apply In_InA_scalar. apply in_map. exact Hin.
Qed.

Lemma region_aggregate_count_conserves_witness :
  exists out : list AggRow,
    region_aggregate (from_records gaps_payload) "region" "revenue" "count"
    = Ok out
    /\ (Qsum (map agg_value out)
        == inject_Z (Z.of_nat (length (filter notna
                                         [Num 3; Num 4; Null; Num 5]))))%Q
    /\ (forall k, In k [Str "A"; Null; Str "A"; Str "B"] ->
          InA scalar_eq k (map agg_region out))
    /\ (forall r, In r out ->
          InA scalar_eq (agg_region r) [Str "A"; Null; Str "A"; Str "B"]).
Proof.
  apply (region_aggregate_count_conserves (from_records gaps_payload)
           "region" "revenue").
  - vm_compute. reflexivity.
  - vm_compute. reflexivity.
  - discriminate.
Defined.




(** ** The analytics routes and their errors *)

Lemma require_columns_missing (df : DataFrame) (cols : list string)
    (c : string) :
  In c cols -> has_column df c = false ->
  exists missing, _require_columns df cols = Err (ValueError_missing missing)
                  /\ In c missing.
Proof.
  intros Hin Hc. unfold _require_columns.
  assert (Hm : In c (filter (fun c => negb (has_column df c)) cols))
    by (apply filter_In; split; [exact Hin | rewrite Hc; reflexivity]).
  destruct (filter _ cols) as [| m ms]; [destruct Hm |].
  eexists. split; [reflexivity | exact Hm].
Qed.




(** ** [trends] on a frame whose three columns are series *)

Lemma positions_three (d r v : string) :
  d <> r -> d <> v -> r <> v ->
  positions d [d; r; v] = [0%nat]
  /\ positions r [d; r; v] = [1%nat]
  /\ positions v [d; r; v] = [2%nat].
Proof.
  intros Hdr Hdv Hrv. unfold positions. cbn [length seq combine filter snd].
  rewrite !String.eqb_refl.
  apply String.eqb_neq in Hdr, Hdv, Hrv.
  rewrite Hdr, Hdv, Hrv.
  rewrite (String.eqb_sym r d), (String.eqb_sym v d), (String.eqb_sym v r).
  rewrite Hdr, Hdv, Hrv. repeat split.
Qed.

Lemma select_three (df : DataFrame) (d r v : string) (pd pr pv : nat) :
  positions d (columns df) = [pd] ->
  positions r (columns df) = [pr] ->
  positions v (columns df) = [pv] ->
  select df [d; r; v]
  = {| columns := [d; r; v];
       rows := map (fun row => [cell row pd; cell row pr; cell row pv])
                 (rows df) |}.
Proof.
  intros Hd Hr Hv. unfold select. cbn [flat_map]. rewrite Hd, Hr, Hv.
  cbn [app map].
  pose proof (positions_nth d (columns df)) as Hnd.
  pose proof (positions_nth r (columns df)) as Hnr.
  pose proof (positions_nth v (columns df)) as Hnv.
  rewrite Hd in Hnd. rewrite Hr in Hnr. rewrite Hv in Hnv.
  apply Forall_inv in Hnd, Hnr, Hnv. rewrite Hnd, Hnr, Hnv. reflexivity.
Qed.

Lemma selected_series (df : DataFrame) (d r v : string) (pd pr pv : nat) :
  positions d (columns df) = [pd] ->
  positions r (columns df) = [pr] ->
  positions v (columns df) = [pv] ->
  d <> r -> d <> v -> r <> v ->
  getitem (select df [d; r; v]) d
  = Series (map (fun row => cell row pd) (rows df))
  /\ getitem (select df [d; r; v]) r
     = Series (map (fun row => cell row pr) (rows df))
  /\ getitem (select df [d; r; v]) v
     = Series (map (fun row => cell row pv) (rows df)).
Proof.
  intros Hd Hr Hv Hdr Hdv Hrv.
  rewrite (select_three _ _ _ _ _ _ _ Hd Hr Hv).
  destruct (positions_three d r v Hdr Hdv Hrv) as (H0 & H1 & H2).
  unfold getitem. cbn [columns rows]. rewrite H0, H1, H2, !map_map.
  repeat split.
Qed.

Lemma combine3_map {A B C D : Type} (f : A -> B) (g : A -> C) (h : A -> D)
    (l : list A) :
  combine (combine (map f l) (map g l)) (map h l)
  = map (fun a => ((f a, g a), h a)) l.
Proof.
  induction l as [| a l IH]; simpl; [reflexivity |]. rewrite IH. reflexivity.
Qed.

(* the frame with the same columns and the rows [rs] *)
Lemma with_rows_columns (df : DataFrame) (rs : list (list Scalar)) :
  columns (with_rows df rs) = columns df /\ rows (with_rows df rs) = rs.
Proof. split; reflexivity. Qed.



(** ** When [trends] returns *)

Lemma positions_of_once (c : string) (cols : list string) :
  occurrences c cols = 1%nat -> exists p : nat, positions c cols = [p].
Proof.
  rewrite <- positions_length.
  destruct (positions c cols) as [| p [| q l]]; try discriminate.
  intros _. exists p. reflexivity.
Qed.

Lemma numbers_numeric {A K : Type} (key : A -> K) (q : A -> Q)
    (l : list A) :
  Forall numeric_or_missing (map snd (map (fun x => (key x, Num (q x))) l)).
Proof.
  rewrite map_map. apply Forall_map. apply Forall_forall.
  intros x _. exact I.
Qed.

(** X14.  For one of the five reductions, [trends] returns exactly when
    the date, region and value columns are three different columns, each
    of whose labels occurs once in the frame, the date column is named
    neither ["region"] nor ["value"], and the frequency is a frequency
    alias; the cells of the frame play no part. *)
Theorem trends_returns_iff `{Runtime} (df : DataFrame)
    (date_col region_col value_col agg freq : string) :
  is_ok (parse_agg agg) = true ->
  (is_ok (trends df date_col region_col value_col agg freq) = true
   <-> (occurrences date_col (columns df) = 1%nat
        /\ occurrences region_col (columns df) = 1%nat
        /\ occurrences value_col (columns df) = 1%nat
        /\ date_col <> region_col /\ date_col <> value_col
        /\ region_col <> value_col
        /\ date_col <> "region" /\ date_col <> "value"
        /\ freq_bucket (if String.eqb freq "M" then "ME" else freq)
           <> None)).
Proof.
  intros Hagg. split.
  - intros Hok.
    destruct (trends df date_col region_col value_col agg freq)
      as [out |] eqn:Ht; [clear Hok | discriminate].
    destruct (trends_fields _ _ _ _ _ _ _ Ht) as (Hreg & Hval & _).
    unfold trends in Ht.
    destruct (_require_columns df [date_col; region_col; value_col])
      as [[] | ?] eqn:Hq; cbn [bind] in Ht; [| discriminate].
    destruct (getitem _ date_col) as [ds | |] eqn:Hd; cbn [bind] in Ht;
      try discriminate.
    destruct (getitem _ value_col) as [vs | |] eqn:Hv; cbn [bind] in Ht;
      try discriminate.
    destruct (getitem _ region_col) as [rs | |] eqn:Hr; cbn [bind] in Ht;
      try discriminate.
    destruct (freq_bucket _) as [b |] eqn:Hf; cbn [bind] in Ht;
      [| discriminate].
    destruct (selected_series_distinct _ _ _ _ _ _ Hq Hd Hv)
      as (Hdr & Hdv & Hrv).
    apply require_columns_present in Hq.
    inversion Hq as [| ? ? Hnd Hq1]; subst.
    inversion Hq1 as [| ? ? Hnr Hq2]; subst.
    inversion Hq2 as [| ? ? Hnv _]; subst.
    apply getitem_series_once in Hd, Hv, Hr.
    rewrite occurrences_select3 in Hd, Hv, Hr.
    rewrite String.eqb_refl in Hd, Hv, Hr.
    apply String.eqb_neq in Hdr, Hdv, Hrv.
    rewrite Hdr in Hr. rewrite Hdv, Hrv in Hv.
    rewrite (String.eqb_sym region_col date_col), Hdr in Hd.
    rewrite (String.eqb_sym value_col date_col), Hdv in Hd.
    rewrite (String.eqb_sym value_col region_col), Hrv in Hr.
    apply String.eqb_neq in Hdr, Hdv, Hrv.
    repeat split; try assumption; try lia. discriminate.
  - intros (Hnd & Hnr & Hnv & Hdr & Hdv & Hrv & Hreg & Hval & Hf).
    destruct (positions_of_once _ _ Hnd) as (pd & Hpd).
    destruct (positions_of_once _ _ Hnr) as (pr & Hpr).
    destruct (positions_of_once _ _ Hnv) as (pv & Hpv).
    unfold trends.
    rewrite require_columns_ok
      by (repeat constructor; rewrite ?Hnd, ?Hnr, ?Hnv; lia).
    cbn [bind].
    destruct (selected_series df date_col region_col value_col pd pr pv
                Hpd Hpr Hpv Hdr Hdv Hrv) as (-> & -> & ->).
    cbn [bind].
    destruct (freq_bucket _) as [b |]; [| congruence]. cbn [bind].
    destruct (parse_agg agg) as [a |]; [| discriminate]. cbn [bind].
    match goal with
    | |- context [mapM ?f ?l] =>
        assert (Hm : is_ok (mapM f l) = true)
    end.
    { apply mapM_total. intros g Hg.
      assert (Hnum : Forall numeric_or_missing (snd g)).
      { refine (proj1 (List.Forall_forall
                           (fun g => Forall numeric_or_missing (snd g)) _)
                  _ g Hg).
        apply groupby_values. apply numbers_numeric. }
      pose proof (reduce_numeric a _ Hnum) as Hred.
      destruct (reduce a (snd g)); [reflexivity | discriminate]. }
    destruct (mapM _ _) as [out |]; [| discriminate]. cbn [bind].
    rewrite (labels_distinct _ _ _ Hdr Hdv Hrv).
    apply String.eqb_neq in Hreg, Hval. rewrite Hreg, Hval.
    change (positions bucket_col [bucket_col; "region"; "value"])
      with [0%nat].
    reflexivity.
Qed.

Lemma trends_returns_iff_witness :
  is_ok (trends (from_records bad_date_payload) "date" "region" "revenue"
           "sum" "M") = true
  <-> (occurrences "date" (columns (from_records bad_date_payload)) = 1%nat
       /\ occurrences "region" (columns (from_records bad_date_payload))
          = 1%nat
       /\ occurrences "revenue" (columns (from_records bad_date_payload))
          = 1%nat
       /\ "date" <> "region" /\ "date" <> "revenue"
       /\ "region" <> "revenue"
       /\ "date" <> "region" /\ "date" <> "value"
       /\ freq_bucket (if String.eqb "M" "M" then "ME" else "M") <> None).
Proof.
  apply (trends_returns_iff (from_records bad_date_payload) "date" "region"
           "revenue" "sum" "M").
  reflexivity.
Defined.

(** ** The rows [trends] returns *)

Lemma mapM_length {A B : Type} (f : A -> Result B) (l : list A)
    (l' : list B) :
  mapM f l = Ok l' -> length l' = length l.
Proof.
  revert l'. induction l as [| a l IH]; intros l' Hm; simpl in Hm.
  - injection Hm as <-. reflexivity.
  - destruct (f a) as [b |]; [| discriminate]. cbn [bind] in Hm.
    destruct (mapM f l) as [bs |]; [| discriminate]. cbn [bind] in Hm.
    injection Hm as <-. simpl. rewrite (IH bs eq_refl). reflexivity.
Qed.

Lemma group_insert_length {K V : Type} (cmp : K -> K -> comparison)
    (k : K) (v : V) (gs : list (K * list V)) :
  (length (group_insert cmp k v gs) <= S (length gs))%nat.
Proof.
  induction gs as [| [k' vs] gs IH]; simpl; [lia |].
  destruct (cmp k k'); simpl; lia.
Qed.

Lemma groupby_length {K V : Type} (cmp : K -> K -> comparison)
    (kvs : list (K * V)) :
  (length (groupby cmp kvs) <= length kvs)%nat.
Proof.
  unfold groupby.
  assert (Hgen : forall gs,
            (length (fold_left
                       (fun gs kv => group_insert cmp (fst kv) (snd kv) gs)
                       kvs gs)
             <= length gs + length kvs)%nat).
  { induction kvs as [| kv kvs IH]; intros gs; simpl; [lia |].
    specialize (IH (group_insert cmp (fst kv) (snd kv) gs)).
    pose proof (group_insert_length cmp (fst kv) (snd kv) gs). lia. }
  apply (Hgen []).
Qed.

Lemma flat_map_length_le {A B : Type} (f : A -> list B) (l : list A) :
  (forall a, length (f a) <= 1)%nat ->
  (length (flat_map f l) <= length l)%nat.
Proof.
  intros Hf. induction l as [| a l IH]; simpl; [lia |].
  rewrite length_app. specialize (Hf a). lia.
Qed.

Lemma getitem_series_length (df : DataFrame) (c : string)
    (cs : list Scalar) :
  getitem df c = Series cs -> length cs = length (rows df).
Proof.
  unfold getitem.
  destruct (positions c (columns df)) as [| i [| j p]]; try discriminate.
  intros [= <-]. apply length_map.
Qed.


